(** * A shallow embedding of the desktop window manager of [script.js]

    The development follows the class [WindowManager]: its fields become a
    record, its methods and event handlers become functions from a state to
    an outcome (a normal completion or a thrown [TypeError], both carrying
    the state reached), and the visual surfaces it drives (class lists,
    inline geometry, stacking order) become plain data.

    Numbers.  Pixel quantities are JavaScript numbers; they are modelled by
    exact rationals [Q] (the handlers add, subtract, halve and compare
    them), without the rounding of doubles.  The stacking counter is a
    whole number that only moves by [+= 1]; it is modelled by [Z] with the
    rounding of that sum to a double written out ([addOne]). *)

From Stdlib Require Import QArith Qminmax Qround Lqa.
From stdpp Require Import gmap strings list fin_maps.

Local Open Scope Z_scope.

(** ** Geometry utilities *)

Module Geometry.

(** [Math.max] and [Math.min] on numbers. *)
Definition Math_max (a b : Q) : Q := Qmax a b.
Definition Math_min (a b : Q) : Q := Qmin a b.

(** [clamp(value, min, max)], line 527. *)
Definition clamp (value min max : Q) : Q :=
  Math_min (Math_max value min) max.

(** Truthiness of a number: every number but zero (NaN does not arise). *)
Definition truthy (q : Q) : bool := negb (Qeq_bool q 0).

(** A bounding box, as returned by [getBoundingClientRect] and as written
    through [style.left], [style.top], [style.width], [style.height]. *)
Record Rect := mkRect { rLeft : Q; rTop : Q; rWidth : Q; rHeight : Q }.

Definition zeroRect : Rect := mkRect 0 0 0 0.

(** Rounding of a layout length to whole pixels, as [offsetWidth] and
    [offsetHeight] report it. *)
Definition roundPx (q : Q) : Q := inject_Z (Qfloor (q + (1 # 2))).

End Geometry.
Export Geometry.

(** ** The stacking counter as a double

    [this.maxZIndex] is a JavaScript number: a double, with a significand
    of 53 bits.  [roundToDouble z] is the double nearest to the whole
    number [z], ties going to the even significand (overflow, beyond
    2^1024, left aside): a whole number of at most 53 bits is a double,
    a longer one is rounded to a multiple of its unit in the last place. *)
Definition roundToDouble (z : Z) : Z :=
  let e := Z.log2 (Z.abs z) - 52 in
  if e <=? 0 then z
  else
    let ulp := 2 ^ e in
    let q := z / ulp in
    let r := z mod ulp in
    if 2 * r <? ulp then q * ulp
    else if ulp <? 2 * r then (q + 1) * ulp
    else if Z.even q then q * ulp else (q + 1) * ulp.

(** [x += 1] on a number holding the whole number [x], line 425. *)
Definition addOne (x : Z) : Z := roundToDouble (x + 1).

(** The first whole number that [+= 1] leaves as it is: 2^53. *)
Definition saturation : Z := 2 ^ 53.

(** Comparisons of numbers as the conditions of the handlers use them. *)
Definition Qltb (a b : Q) : bool :=
  match (a ?= b)%Q with Lt => true | _ => false end.
Definition Qleb (a b : Q) : bool :=
  match (a ?= b)%Q with Gt => false | _ => true end.

(** ** Data model *)

(** The three state classes the manager toggles on a window element. *)
Record ClassList := mkClassList {
  cl_active : bool;
  cl_maximized : bool;
  cl_minimized : bool
}.

(** A window element: its class list, the box its inline style gives it
    ([style.left], [style.top], [style.width], [style.height], in px) and
    its inline [style.zIndex] ([None] while never assigned). *)
Record Element := mkElement {
  classList : ClassList;
  style : Rect;
  zIndex : option Z
}.

(** [state: 'closed' | 'open' | 'minimized' | 'maximized'], line 34. *)
Inductive WState := closed | open | minimized | maximized.

Record Position := mkPosition { pos_x : Q; pos_y : Q }.
Record Size := mkSize { size_width : Q; size_height : Q }.

(** An entry of [this.windows], lines 32-37.  The element is held by value:
    every window element of the page belongs to exactly one entry. *)
Record WindowData := mkWindowData {
  element : Element;
  state : WState;
  originalPosition : Position;
  originalSize : Size
}.

(** The eight resize handles, line 206. *)
Inductive Direction :=
  | dir_top | dir_right | dir_bottom | dir_left
  | dir_top_left | dir_top_right | dir_bottom_left | dir_bottom_right.

(** [direction.includes('top')] and its siblings on the eight names. *)
Definition includes_top (d : Direction) : bool :=
  match d with dir_top | dir_top_left | dir_top_right => true | _ => false end.
Definition includes_right (d : Direction) : bool :=
  match d with dir_right | dir_top_right | dir_bottom_right => true | _ => false end.
Definition includes_bottom (d : Direction) : bool :=
  match d with dir_bottom | dir_bottom_left | dir_bottom_right => true | _ => false end.
Definition includes_left (d : Direction) : bool :=
  match d with dir_left | dir_top_left | dir_bottom_left => true | _ => false end.

(** [this.resizeStart], lines 231-238. *)
Record ResizeStart := mkResizeStart {
  start_x : Q; start_y : Q;
  start_width : Q; start_height : Q;
  start_left : Q; start_top : Q
}.

(** The manager's fields (lines 4-16) together with the parts of the
    document it reads and writes: the viewport size
    ([document.documentElement.clientWidth/Height]), the [active] class of
    the dock icons that exist, and the body's cursor and user-select style.
    [zHistory] is a history variable: the values written to
    [style.zIndex] so far, most recent first.  No code reads it. *)
Record World := mkWorld {
  windows : gmap string WindowData;
  activeWindow : option string;
  maxZIndex : Z;
  dragging : bool;
  dragOffset : Position;
  currentDraggedWindow : option string;
  resizing : bool;
  resizeTarget : option string;
  resizeDirection : option Direction;
  resizeStart : option ResizeStart;
  menuBarHeight : Q;
  viewportPadding : Q;
  clientWidth : Q;
  clientHeight : Q;
  dockIcons : gmap string bool;
  bodyCursor : string;
  bodyUserSelect : string;
  zHistory : list Z
}.

(** Field updates. *)
Definition set_classList (c : ClassList) (e : Element) : Element :=
  mkElement c (style e) (zIndex e).
Definition set_style (r : Rect) (e : Element) : Element :=
  mkElement (classList e) r (zIndex e).
Definition set_zIndex (z : Z) (e : Element) : Element :=
  mkElement (classList e) (style e) (Some z).

Definition set_element (e : Element) (wd : WindowData) : WindowData :=
  mkWindowData e (state wd) (originalPosition wd) (originalSize wd).
Definition set_state (st : WState) (wd : WindowData) : WindowData :=
  mkWindowData (element wd) st (originalPosition wd) (originalSize wd).
Definition set_originalPosition (p : Position) (wd : WindowData) : WindowData :=
  mkWindowData (element wd) (state wd) p (originalSize wd).
Definition set_originalSize (sz : Size) (wd : WindowData) : WindowData :=
  mkWindowData (element wd) (state wd) (originalPosition wd) sz.

Definition set_windows (ws : gmap string WindowData) (s : World) : World :=
  mkWorld ws (activeWindow s) (maxZIndex s) (dragging s) (dragOffset s)
    (currentDraggedWindow s) (resizing s) (resizeTarget s) (resizeDirection s)
    (resizeStart s) (menuBarHeight s) (viewportPadding s) (clientWidth s)
    (clientHeight s) (dockIcons s) (bodyCursor s) (bodyUserSelect s) (zHistory s).
Definition set_maxZIndex (z : Z) (s : World) : World :=
  mkWorld (windows s) (activeWindow s) z (dragging s) (dragOffset s)
    (currentDraggedWindow s) (resizing s) (resizeTarget s) (resizeDirection s)
    (resizeStart s) (menuBarHeight s) (viewportPadding s) (clientWidth s)
    (clientHeight s) (dockIcons s) (bodyCursor s) (bodyUserSelect s) (zHistory s).
Definition set_activeWindow (a : option string) (s : World) : World :=
  mkWorld (windows s) a (maxZIndex s) (dragging s) (dragOffset s)
    (currentDraggedWindow s) (resizing s) (resizeTarget s) (resizeDirection s)
    (resizeStart s) (menuBarHeight s) (viewportPadding s) (clientWidth s)
    (clientHeight s) (dockIcons s) (bodyCursor s) (bodyUserSelect s) (zHistory s).
Definition log_zIndex (z : Z) (s : World) : World :=
  mkWorld (windows s) (activeWindow s) (maxZIndex s) (dragging s) (dragOffset s)
    (currentDraggedWindow s) (resizing s) (resizeTarget s) (resizeDirection s)
    (resizeStart s) (menuBarHeight s) (viewportPadding s) (clientWidth s)
    (clientHeight s) (dockIcons s) (bodyCursor s) (bodyUserSelect s) (z :: zHistory s).
Definition set_drag (d : bool) (target : option string) (s : World) : World :=
  mkWorld (windows s) (activeWindow s) (maxZIndex s) d (dragOffset s)
    target (resizing s) (resizeTarget s) (resizeDirection s)
    (resizeStart s) (menuBarHeight s) (viewportPadding s) (clientWidth s)
    (clientHeight s) (dockIcons s) (bodyCursor s) (bodyUserSelect s) (zHistory s).
Definition set_dragOffset (p : Position) (s : World) : World :=
  mkWorld (windows s) (activeWindow s) (maxZIndex s) (dragging s) p
    (currentDraggedWindow s) (resizing s) (resizeTarget s) (resizeDirection s)
    (resizeStart s) (menuBarHeight s) (viewportPadding s) (clientWidth s)
    (clientHeight s) (dockIcons s) (bodyCursor s) (bodyUserSelect s) (zHistory s).
Definition set_resize (r : bool) (target : option string)
    (d : option Direction) (st : option ResizeStart) (s : World) : World :=
  mkWorld (windows s) (activeWindow s) (maxZIndex s) (dragging s) (dragOffset s)
    (currentDraggedWindow s) r target d st
    (menuBarHeight s) (viewportPadding s) (clientWidth s)
    (clientHeight s) (dockIcons s) (bodyCursor s) (bodyUserSelect s) (zHistory s).
Definition set_menuBarHeight (h : Q) (s : World) : World :=
  mkWorld (windows s) (activeWindow s) (maxZIndex s) (dragging s) (dragOffset s)
    (currentDraggedWindow s) (resizing s) (resizeTarget s) (resizeDirection s)
    (resizeStart s) h (viewportPadding s) (clientWidth s)
    (clientHeight s) (dockIcons s) (bodyCursor s) (bodyUserSelect s) (zHistory s).
Definition set_viewport (w h : Q) (s : World) : World :=
  mkWorld (windows s) (activeWindow s) (maxZIndex s) (dragging s) (dragOffset s)
    (currentDraggedWindow s) (resizing s) (resizeTarget s) (resizeDirection s)
    (resizeStart s) (menuBarHeight s) (viewportPadding s) w h
    (dockIcons s) (bodyCursor s) (bodyUserSelect s) (zHistory s).
Definition set_dockIcons (d : gmap string bool) (s : World) : World :=
  mkWorld (windows s) (activeWindow s) (maxZIndex s) (dragging s) (dragOffset s)
    (currentDraggedWindow s) (resizing s) (resizeTarget s) (resizeDirection s)
    (resizeStart s) (menuBarHeight s) (viewportPadding s) (clientWidth s)
    (clientHeight s) d (bodyCursor s) (bodyUserSelect s) (zHistory s).
Definition set_body (cursor userSelect : string) (s : World) : World :=
  mkWorld (windows s) (activeWindow s) (maxZIndex s) (dragging s) (dragOffset s)
    (currentDraggedWindow s) (resizing s) (resizeTarget s) (resizeDirection s)
    (resizeStart s) (menuBarHeight s) (viewportPadding s) (clientWidth s)
    (clientHeight s) (dockIcons s) cursor userSelect (zHistory s).

(** ** Outcomes: normal completion or a thrown exception *)

(** A handler either runs to its end or stops at an exception: a
    [TypeError] (a property read on [undefined] or [null]) or the
    [SyntaxError] of [querySelector]; the writes made before stay. *)
Inductive outcome :=
  | Done (s : World)
  | Threw (s : World).

Definition final (o : outcome) : World :=
  match o with Done s | Threw s => s end.

Definition andThen (o : outcome) (k : World -> outcome) : outcome :=
  match o with
  | Done s => k s
  | Threw s => Threw s
  end.

Notation "'do' s <- o ; k" := (andThen o (fun s => k))
  (at level 10, s name, o at level 100, k at level 200).

(** ** Property lookup on [this.windows]

    [this.windows] is an object literal ([{}], line 4), so a read
    [this.windows[name]] finds the entries stored by [init] and, behind
    them, what the object inherits from [Object.prototype]. *)
Definition objectPrototypeKeys : list string :=
  [ "constructor"; "__defineGetter__"; "__defineSetter__"; "hasOwnProperty";
    "__lookupGetter__"; "__lookupSetter__"; "isPrototypeOf";
    "propertyIsEnumerable"; "toString"; "valueOf"; "__proto__";
    "toLocaleString" ]%string.

Inductive Property :=
  | Own (wd : WindowData)   (* an entry stored by [init] *)
  | Inherited               (* a truthy member of [Object.prototype]; its
                               [element] and [state] are [undefined] *)
  | Undefined.

Definition lookupWindow (s : World) (name : string) : Property :=
  match windows s !! name with
  | Some wd => Own wd
  | None => if bool_decide (name ∈ objectPrototypeKeys) then Inherited else Undefined
  end.

(** Truthiness of [this.currentDraggedWindow] and [this.resizeTarget]:
    [null] and the empty string are falsy. *)
Definition truthyName (o : option string) : bool :=
  match o with
  | Some n => negb (String.eqb n "")
  | None => false
  end.

(** ** The rendering layer

    The stylesheet and the markup are not part of [script.js]; the manager
    only sees them through measurements. *)

(** Modelled from the spec: the stylesheet of the page, which is missing
    from the sources.  The core "only sets geometry/flags and reads measured
    rectangles" (section 6); a window can be "hidden" (section 4.5) and a
    maximized window's geometry "becomes full-viewport, handled by the
    rendering layer's styling" (section 4.1).  [displayNone] tells from the
    class list whether the computed [display] is [none]; [maximizedBox]
    gives the box of a maximized window in a viewport of the given width and
    height. *)
Record Stylesheet := mkStylesheet {
  displayNone : ClassList -> bool;
  maximizedBox : Q -> Q -> Rect
}.

(** Modelled from the spec: the desktop surface, missing from the sources,
    sits at the viewport origin (also the value the code falls back to when
    there is no desktop element, line 489). *)
Definition desktopRect : Rect := mkRect 0 0 0 0.

Section Manager.

Variable css : Stylesheet.

(** Modelled from the spec: [element.getBoundingClientRect()] of a window
    element, missing from the sources.  A hidden element measures zero, a
    maximized one has the stylesheet's box, any other the box of its
    inline style ("get/set operations for screen-space bounding box",
    section 6). *)
Definition getBoundingClientRect (s : World) (e : Element) : Rect :=
  if displayNone css (classList e) then zeroRect
  else if cl_maximized (classList e)
       then maximizedBox css (clientWidth s) (clientHeight s)
       else style e.

(** Modelled from the spec: [element.offsetWidth] and
    [element.offsetHeight], the measured size in whole pixels. *)
Definition offsetWidth (s : World) (e : Element) : Q :=
  roundPx (rWidth (getBoundingClientRect s e)).
Definition offsetHeight (s : World) (e : Element) : Q :=
  roundPx (rHeight (getBoundingClientRect s e)).

(** *** Class list and style writes *)

Definition add_active (e : Element) : Element :=
  set_classList (mkClassList true (cl_maximized (classList e))
                   (cl_minimized (classList e))) e.
Definition remove_active (e : Element) : Element :=
  set_classList (mkClassList false (cl_maximized (classList e))
                   (cl_minimized (classList e))) e.
Definition add_maximized (e : Element) : Element :=
  set_classList (mkClassList (cl_active (classList e)) true
                   (cl_minimized (classList e))) e.
Definition remove_maximized (e : Element) : Element :=
  set_classList (mkClassList (cl_active (classList e)) false
                   (cl_minimized (classList e))) e.
Definition add_minimized (e : Element) : Element :=
  set_classList (mkClassList (cl_active (classList e))
                   (cl_maximized (classList e)) true) e.
Definition remove_minimized (e : Element) : Element :=
  set_classList (mkClassList (cl_active (classList e))
                   (cl_maximized (classList e)) false) e.

Definition set_left (v : Q) (e : Element) : Element :=
  set_style (mkRect v (rTop (style e)) (rWidth (style e)) (rHeight (style e))) e.
Definition set_top (v : Q) (e : Element) : Element :=
  set_style (mkRect (rLeft (style e)) v (rWidth (style e)) (rHeight (style e))) e.

(** [style.width = v + 'px'] and [style.height = v + 'px'].  A negative
    length is not a value of these two properties: the assignment is
    dropped and the style keeps what it had.  ([left] and [top] take any
    length.) *)
Definition set_width (v : Q) (e : Element) : Element :=
  if Qltb v 0 then e
  else set_style (mkRect (rLeft (style e)) (rTop (style e)) v (rHeight (style e))) e.
Definition set_height (v : Q) (e : Element) : Element :=
  if Qltb v 0 then e
  else set_style (mkRect (rLeft (style e)) (rTop (style e)) (rWidth (style e)) v) e.

(** Writes through the registry: the entry of [name] is replaced, or its
    element is. *)
Definition modifyWindow (name : string) (f : WindowData -> WindowData)
    (s : World) : World :=
  set_windows (alter f name (windows s)) s.
Definition modifyElement (name : string) (f : Element -> Element)
    (s : World) : World :=
  modifyWindow name (fun wd => set_element (f (element wd)) wd) s.

(** *** [getMinDimensions], lines 507-525 *)
Definition getMinDimensions (s : World) : Size :=
  let viewportWidth := clientWidth s in
  let viewportHeight := clientHeight s in
  let horizontalSpace :=
    Math_max 0 (viewportWidth - viewportPadding s * 2)%Q in
  let verticalSpace :=
    Math_max 0 (viewportHeight - menuBarHeight s - viewportPadding s * 2)%Q in
  let minWidth :=
    if Qleb horizontalSpace 240 then horizontalSpace
    else Math_min 400 horizontalSpace in
  let minHeight :=
    if Qleb verticalSpace 220 then verticalSpace
    else Math_min 300 verticalSpace in
  mkSize minWidth minHeight.

(** *** [ensureWindowInViewport], lines 459-505

    The method returns nothing and writes the element's style; here it
    maps the element to the element after the writes. *)
Definition ensureWindowInViewport (s : World) (windowElement : Element)
    : Element :=
  if cl_maximized (classList windowElement)
     || displayNone css (classList windowElement)
  then windowElement
  else
    let padding := viewportPadding s in
    let viewportWidth := clientWidth s in
    let viewportHeight := clientHeight s in
    let maxWidth := (viewportWidth - padding * 2)%Q in
    let maxHeight := (viewportHeight - menuBarHeight s - padding * 2)%Q in
    let e1 :=
      if Qltb 0 maxWidth then
        let currentWidth := rWidth (getBoundingClientRect s windowElement) in
        set_width (Math_min currentWidth maxWidth) windowElement
      else windowElement in
    let e2 :=
      if Qltb 0 maxHeight then
        let currentHeight := rHeight (getBoundingClientRect s e1) in
        set_height (Math_min currentHeight maxHeight) e1
      else e1 in
    let updatedRect := getBoundingClientRect s e2 in
    let relativeLeft := (rLeft updatedRect - rLeft desktopRect)%Q in
    let relativeTop := (rTop updatedRect - rTop desktopRect)%Q in
    let maxLeft := (viewportWidth - rWidth updatedRect - padding)%Q in
    let maxTop := (viewportHeight - rHeight updatedRect - padding)%Q in
    let newLeft := clamp relativeLeft padding (Math_max padding maxLeft) in
    let newTop :=
      clamp relativeTop (menuBarHeight s + padding)%Q
        (Math_max (menuBarHeight s + padding)%Q maxTop) in
    set_top newTop (set_left newLeft e2).

(** [ensureAllWindowsInViewport], lines 453-457. *)
Definition ensureAllWindowsInViewport (s : World) : World :=
  set_windows
    ((fun wd => set_element (ensureWindowInViewport s (element wd)) wd)
       <$> windows s) s.

(** *** [updateDockIcon], lines 436-445

    Line 437 builds the selector text [.dock-icon[data-app=...]] with the
    name put between double quotes as it is, unescaped.  CSS reads the
    quoted part as a string: a double quote ends it, a backslash starts an
    escape, and a line break is not allowed inside.  [plainName] holds of
    the names free of these characters; for such a name the text is the
    selector of the dock icon whose [data-app] is the name, and
    [querySelector] finds that icon when the page has one.  With any other
    name the quoted string ends early or swallows what follows, so the
    text is not the selector of that icon, and as a rule no selector at
    all: [querySelector] throws a [SyntaxError] (so for a name with text
    after a double quote, as an [a], a double quote and a [b]).  The model
    takes this outcome for every name that is not plain; it does not tell
    apart the names after which the text happens to be a selector again,
    of some other element. *)
Definition specialChars : list Ascii.ascii :=
  [ Ascii.ascii_of_N 34     (* double quote *);
    Ascii.ascii_of_N 92     (* backslash *);
    Ascii.ascii_of_N 10     (* line feed *);
    Ascii.ascii_of_N 12     (* form feed *);
    Ascii.ascii_of_N 13     (* carriage return *);
    Ascii.ascii_of_N 0      (* NUL, which CSS replaces *) ].

Fixpoint plainName (name : string) : bool :=
  match name with
  | EmptyString => true
  | String c rest =>
      negb (existsb (Ascii.eqb c) specialChars) && plainName rest
  end.

Definition updateDockIcon (appName : string) (isActive : bool) (s : World)
    : outcome :=
  if plainName appName
  then Done (set_dockIcons (alter (fun _ => isActive) appName (dockIcons s)) s)
  else Threw s.   (* [SyntaxError] from [querySelector] *)

(** *** [bringToFront], lines 420-434 *)
Definition bringToFront (appName : string) (s : World) : outcome :=
  match lookupWindow s appName with
  | Undefined => Done s
  | Inherited =>
      (* [window] is [undefined]: the counter is incremented, then the
         read of [window.style] throws *)
      Threw (set_maxZIndex (addOne (maxZIndex s)) s)
  | Own _ =>
      let s1 := set_maxZIndex (addOne (maxZIndex s)) s in
      let s2 := log_zIndex (maxZIndex s1)
                  (modifyElement appName (set_zIndex (maxZIndex s1)) s1) in
      let s3 := set_activeWindow (Some appName) s2 in
      let s4 := set_windows
                  ((fun wd => set_element (remove_active (element wd)) wd)
                     <$> windows s3) s3 in
      Done (modifyElement appName add_active s4)
  end.

(** *** [openWindow], lines 317-343 *)
Definition openWindow (appName : string) (s : World) : outcome :=
  match lookupWindow s appName with
  | Undefined => Done s
  | Inherited =>
      (* [windowData.state] is [undefined], neither test holds;
         [bringToFront] throws *)
      do s1 <- bringToFront appName s;
      updateDockIcon appName true s1
  | Own windowData =>
      let wd1 :=
        match state windowData with
        | minimized =>
            set_state open
              (set_element (remove_minimized (element windowData)) windowData)
        | _ => windowData
        end in
      let wd2 :=
        match state wd1 with
        | closed => set_state open (set_element (add_active (element wd1)) wd1)
        | _ => wd1
        end in
      do s1 <- bringToFront appName
                 (set_windows (<[appName := wd2]> (windows s)) s);
      let s2 := modifyElement appName (ensureWindowInViewport s1) s1 in
      updateDockIcon appName true s2
  end.

(** *** [closeWindow], lines 345-355 *)
Definition closeWindow (appName : string) (s : World) : outcome :=
  match lookupWindow s appName with
  | Undefined => Done s
  | Inherited => Threw s   (* [window.classList] on [undefined] *)
  | Own windowData =>
      let window :=
        remove_minimized (remove_maximized (remove_active (element windowData))) in
      let s1 := set_windows
                  (<[appName := set_state closed (set_element window windowData)]>
                     (windows s)) s in
      updateDockIcon appName false s1
  end.

(** *** [minimizeWindow], lines 357-368 *)
Definition minimizeWindow (appName : string) (s : World) : outcome :=
  match lookupWindow s appName with
  | Undefined => Done s
  | Inherited => Threw s   (* [window.classList] on [undefined] *)
  | Own windowData =>
      let window :=
        remove_maximized (remove_active (add_minimized (element windowData))) in
      let s1 := set_windows
                  (<[appName := set_state minimized (set_element window windowData)]>
                     (windows s)) s in
      updateDockIcon appName true s1
  end.

(** *** [maximizeWindow], lines 370-400

    [maximizeEntry] is the body after the lookup, on the entry found. *)
Definition maximizeEntry (s : World) (windowData : WindowData) : WindowData :=
  let window := element windowData in
  if cl_maximized (classList window) then
    (* Restore *)
    let w1 := remove_maximized window in
    let originalPos := originalPosition windowData in
    let originalSize := originalSize windowData in
    let w2 :=
      if truthy (pos_x originalPos) && truthy (pos_y originalPos)
      then set_top (pos_y originalPos) (set_left (pos_x originalPos) w1)
      else w1 in
    let w3 :=
      if truthy (size_width originalSize) && truthy (size_height originalSize)
      then set_height (size_height originalSize)
             (set_width (size_width originalSize) w2)
      else w2 in
    set_element (ensureWindowInViewport s w3) windowData
  else
    (* Maximize *)
    let rect := getBoundingClientRect s window in
    set_element (add_maximized window)
      (set_originalSize (mkSize (rWidth rect) (rHeight rect))
         (set_originalPosition (mkPosition (rLeft rect) (rTop rect))
            windowData)).

Definition maximizeWindow (appName : string) (s : World) : outcome :=
  match lookupWindow s appName with
  | Undefined => Done s
  | Inherited => Threw s   (* [window.classList] on [undefined] *)
  | Own windowData =>
      Done (set_windows (<[appName := maximizeEntry s windowData]> (windows s)) s)
  end.

(** *** [toggleWindow], lines 402-418 *)
Definition toggleWindow (appName : string) (s : World) : outcome :=
  match lookupWindow s appName with
  | Undefined => Done s
  | Inherited => Done s   (* [windowData.state] is [undefined]: no case *)
  | Own windowData =>
      match state windowData with
      | closed => openWindow appName s
      | minimized => openWindow appName s
      | open | maximized => bringToFront appName s
      end
  end.

(** *** [getCursorForDirection], lines 247-255 *)
Definition getCursorForDirection (direction : Direction) : string :=
  if includes_left direction && includes_top direction then "nwse-resize"
  else if includes_right direction && includes_bottom direction then "nwse-resize"
  else if includes_right direction && includes_top direction then "nesw-resize"
  else if includes_left direction && includes_bottom direction then "nesw-resize"
  else match direction with
       | dir_left | dir_right => "ew-resize"
       | dir_top | dir_bottom => "ns-resize"
       | _ => "default"
       end.

(** *** [handleResize], lines 257-315

    The arithmetic of the handler, block by block: the adjustment by the
    handle's direction (lines 265-290), the clamp to the minimum
    dimensions (lines 292-293) and the clamp against the viewport
    (lines 295-309).  [resizeBox] is the box that is written to the
    style. *)
Definition resizeAdjust (direction : Direction) (start : ResizeStart)
    (clientX clientY : Q) : Rect :=
  let dx := (clientX - start_x start)%Q in
  let dy := (clientY - start_y start)%Q in
  let newWidth := start_width start in
  let newHeight := start_height start in
  let newLeft := start_left start in
  let newTop := start_top start in
  let newWidth :=
    if includes_right direction then (start_width start + dx)%Q else newWidth in
  let '(newWidth, newLeft) :=
    if includes_left direction
    then ((start_width start - dx)%Q, (start_left start + dx)%Q)
    else (newWidth, newLeft) in
  let newHeight :=
    if includes_bottom direction then (start_height start + dy)%Q else newHeight in
  let '(newHeight, newTop) :=
    if includes_top direction
    then ((start_height start - dy)%Q, (start_top start + dy)%Q)
    else (newHeight, newTop) in
  mkRect newLeft newTop newWidth newHeight.

Definition resizeMinimum (s : World) (b : Rect) : Rect :=
  let minWidth := size_width (getMinDimensions s) in
  let minHeight := size_height (getMinDimensions s) in
  let newWidth := Math_max minWidth (rWidth b) in
  let newHeight := Math_max minHeight (rHeight b) in
  mkRect (rLeft b) (rTop b) newWidth newHeight.

Definition resizeContain (s : World) (b : Rect) : Rect :=
  let viewportWidth := clientWidth s in
  let viewportHeight := clientHeight s in
  let newWidth := rWidth b in
  let newHeight := rHeight b in
  let newLeft := rLeft b in
  let newTop := rTop b in
  let '(newWidth, newLeft) :=
    if Qltb newLeft 0 then ((newWidth + newLeft)%Q, 0%Q)
    else (newWidth, newLeft) in
  let '(newHeight, newTop) :=
    if Qltb newTop (menuBarHeight s)
    then ((newHeight + (newTop - menuBarHeight s))%Q, menuBarHeight s)
    else (newHeight, newTop) in
  let newWidth :=
    if Qltb viewportWidth (newLeft + newWidth)%Q
    then (viewportWidth - newLeft)%Q else newWidth in
  let newHeight :=
    if Qltb viewportHeight (newTop + newHeight)%Q
    then (viewportHeight - newTop)%Q else newHeight in
  mkRect newLeft newTop newWidth newHeight.

Definition resizeBox (s : World) (direction : Direction) (start : ResizeStart)
    (clientX clientY : Q) : Rect :=
  resizeContain s (resizeMinimum s (resizeAdjust direction start clientX clientY)).

Definition handleResize (clientX clientY : Q) (s : World) : outcome :=
  match resizeTarget s with
  | None => Done s   (* not called: the caller tests [this.resizeTarget] *)
  | Some target =>
      match lookupWindow s target with
      | Undefined => Done s
      | Inherited => Threw s   (* [windowElement] is [undefined] *)
      | Own _ =>
          match resizeStart s, resizeDirection s with
          | Some start, Some direction =>
              let box := resizeBox s direction start clientX clientY in
              Done (modifyElement target
                      (fun e =>
                         set_top (rTop box)
                           (set_left (rLeft box)
                              (set_height (rHeight box)
                                 (set_width (rWidth box) e)))) s)
          | _, _ => Threw s   (* [start] or [direction] is [null] *)
          end
      end
  end.

(** *** The drag and resize gestures, lines 88-178 and 215-242

    A titlebar or a resize handle exists for the window elements of the
    page only, so the two pointer-down handlers are given a registered
    name; on any other name there is no such event. *)

(** [mousedown] on the titlebar of window [appName] (not on a control
    button), lines 90-122. *)
Definition onTitlebarMouseDown (appName : string) (clientX clientY : Q)
    (s : World) : outcome :=
  match windows s !! appName with
  | None => Done s
  | Some _ =>
      do s1 <- bringToFront appName s;
      let s2 := set_drag true (Some appName) s1 in
      match windows s2 !! appName with
      | None => Threw s2
      | Some windowData =>
          let window := element windowData in
          let rect := getBoundingClientRect s2 window in
          let s3 := set_dragOffset
                      (mkPosition (clientX - rLeft rect)%Q (clientY - rTop rect)%Q)
                      s2 in
          (* Store original position if not maximized *)
          let s4 :=
            if negb (cl_maximized (classList window))
            then modifyWindow appName
                   (set_originalPosition (mkPosition (rLeft rect) (rTop rect))) s3
            else s3 in
          Done (set_body "grabbing" "none" s4)
      end
  end.

(** [mousedown] on the handle [direction] of window [appName],
    lines 215-242. *)
Definition onHandleMouseDown (appName : string) (direction : Direction)
    (clientX clientY : Q) (s : World) : outcome :=
  match windows s !! appName with
  | None => Done s
  | Some windowData =>
      if cl_maximized (classList (element windowData)) then Done s
      else
        do s1 <- bringToFront appName s;
        match windows s1 !! appName with
        | None => Threw s1
        | Some wd1 =>
            let rect := getBoundingClientRect s1 (element wd1) in
            let s2 := set_resize true (Some appName) (Some direction)
                        (Some (mkResizeStart clientX clientY
                                 (rWidth rect) (rHeight rect)
                                 (rLeft rect) (rTop rect))) s1 in
            Done (set_body (getCursorForDirection direction) "none" s2)
        end
  end.

(** The document's [mousemove] handler, lines 125-159. *)
Definition onMouseMove (clientX clientY : Q) (s : World) : outcome :=
  if resizing s && truthyName (resizeTarget s) then handleResize clientX clientY s
  else if dragging s && truthyName (currentDraggedWindow s) then
    match currentDraggedWindow s with
    | None => Done s
    | Some target =>
        match lookupWindow s target with
        | Undefined => Threw s   (* [.element] on [undefined] *)
        | Inherited => Threw s   (* [windowElement.classList] on [undefined] *)
        | Own windowData =>
            do s1 <-
              (if cl_maximized (classList (element windowData)) then
                 (* If maximized, restore first *)
                 do s' <- maximizeWindow target s;
                 match windows s' !! target with
                 | None => Threw s'
                 | Some wd' =>
                     let rect := getBoundingClientRect s' (element wd') in
                     Done (set_dragOffset
                             (mkPosition (clientX - rWidth rect / 2)%Q
                                         (clientY - 50)%Q) s')
                 end
               else Done s);
            match windows s1 !! target with
            | None => Threw s1
            | Some wd1 =>
                let windowElement := element wd1 in
                let newX := (clientX - pos_x (dragOffset s1))%Q in
                let newY := (clientY - pos_y (dragOffset s1))%Q in
                (* Constrain to viewport *)
                let viewportWidth := clientWidth s1 in
                let viewportHeight := clientHeight s1 in
                let windowWidth := offsetWidth s1 windowElement in
                let windowHeight := offsetHeight s1 windowElement in
                let maxX := (viewportWidth - windowWidth)%Q in
                let maxY := (viewportHeight - windowHeight)%Q in
                Done (modifyElement target
                        (fun e =>
                           set_top (Math_max (menuBarHeight s1) (Math_min newY maxY))
                             (set_left (Math_max 0 (Math_min newX maxX)) e)) s1)
            end
        end
    end
  else Done s.

(** The document's [mouseup] handler, lines 161-177. *)
Definition onMouseUp (s : World) : outcome :=
  let s1 := if dragging s then set_body "" "" (set_drag false None s) else s in
  let s2 := if resizing s1
            then set_body "" "" (set_resize false None None None s1)
            else s1 in
  Done s2.

(** The window's [resize] listener, lines 447-451, after the viewport has
    taken its new size. *)
Definition onViewportResize (w h : Q) (s : World) : outcome :=
  Done (ensureAllWindowsInViewport (set_viewport w h s)).

(** *** Start-up, lines 3-63 *)

(** What [init] finds in the document: the menu bar's [offsetHeight] when
    there is a menu bar, the window elements with their [data-app] name
    and the box the stylesheet gives them, the names of the dock icons and
    the viewport size.  Window elements start without state classes and
    without inline stacking order, under pairwise different names, none
    of them [__proto__]. *)
Record Page := mkPage {
  page_menuBar : option Q;
  page_windows : list (string * Rect);
  page_dock : list string;
  page_width : Q;
  page_height : Q
}.

(** The constructor's field initialisers, lines 4-16. *)
Definition constructor (p : Page) : World :=
  {| windows := ∅;
     activeWindow := None;
     maxZIndex := 200;
     dragging := false;
     dragOffset := mkPosition 0 0;
     currentDraggedWindow := None;
     resizing := false;
     resizeTarget := None;
     resizeDirection := None;
     resizeStart := None;
     menuBarHeight := 30;
     viewportPadding := 12;
     clientWidth := page_width p;
     clientHeight := page_height p;
     dockIcons := list_to_map ((fun n => (n, false)) <$> page_dock p);
     bodyCursor := "";
     bodyUserSelect := "";
     zHistory := [] |}.

(** The registration loop of [init], lines 30-38. *)
Definition registerWindow (s : World) (w : string * Rect) : World :=
  set_windows
    (<[w.1 := {| element := mkElement (mkClassList false false false) w.2 None;
                 state := closed;
                 originalPosition := mkPosition 0 0;
                 originalSize := mkSize 0 0 |}]> (windows s)) s.

(** [new WindowManager()]: the constructor followed by [init]. *)
Definition init (p : Page) : outcome :=
  let s0 := constructor p in
  let s1 := match page_menuBar p with
            | Some h => set_menuBarHeight h s0
            | None => s0
            end in
  let s2 := foldl registerWindow s1 (page_windows p) in
  let s3 := ensureAllWindowsInViewport s2 in
  openWindow "about" s3.

(** *** Events *)

(** The commands of the core (its five entry points and [bringToFront])
    and the pointer and viewport events it listens to. *)
Inductive Event :=
  | Open (name : string)
  | Close (name : string)
  | Minimize (name : string)
  | Maximize (name : string)
  | Toggle (name : string)
  | BringToFront (name : string)
  | TitlebarMouseDown (name : string) (clientX clientY : Q)
  | HandleMouseDown (name : string) (direction : Direction) (clientX clientY : Q)
  | MouseMove (clientX clientY : Q)
  | MouseUp
  | ViewportResize (w h : Q).

Definition step (e : Event) (s : World) : outcome :=
  match e with
  | Open n => openWindow n s
  | Close n => closeWindow n s
  | Minimize n => minimizeWindow n s
  | Maximize n => maximizeWindow n s
  | Toggle n => toggleWindow n s
  | BringToFront n => bringToFront n s
  | TitlebarMouseDown n x y => onTitlebarMouseDown n x y s
  | HandleMouseDown n d x y => onHandleMouseDown n d x y s
  | MouseMove x y => onMouseMove x y s
  | MouseUp => onMouseUp s
  | ViewportResize w h => onViewportResize w h s
  end.

(** A run: the events are handled one after the other; an exception ends
    its handler, not the page. *)
Definition run (es : list Event) (s : World) : World :=
  foldl (fun s e => final (step e s)) s es.

(** The states a page can be in: after start-up and any number of events,
    each allowed by [guard]. *)
Inductive reachable (guard : Event -> World -> Prop) : World -> Prop :=
  | reachable_init p : reachable guard (final (init p))
  | reachable_step e s :
      reachable guard s -> guard e s -> reachable guard (final (step e s)).

End Manager.

Arguments reachable_init {css guard} p.
Arguments reachable_step {css guard} e {s} _ _.

(** ** A sample page

    Used to run the handlers on concrete inputs. *)

(** Modelled from the spec: a stylesheet, missing from the sources, under
    which a window is displayed while it has the [active] class and is not
    minimized ("a closed window has no valid geometry", section 3; closing
    only removes classes, line 350), and a maximized window fills the
    viewport. *)
Definition sampleStylesheet : Stylesheet :=
  {| displayNone := fun c => negb (cl_active c) || cl_minimized c;
     maximizedBox := fun w h => mkRect 0 0 w h |}.

(** A page of 1000 by 800 pixels with a menu bar of 30 pixels, two windows
    and their dock icons. *)
Definition samplePage : Page :=
  {| page_menuBar := Some 30%Q;
     page_windows := [ ("about"%string, mkRect 100 100 500 400);
                       ("projects"%string, mkRect 200 150 600 450) ];
     page_dock := [ "about"%string; "projects"%string ];
     page_width := 1000;
     page_height := 800 |}.

Definition sampleStart : World := final (init sampleStylesheet samplePage).

(** The events that bring a window to the front, with the window. *)
Definition frontTarget (e : Event) : option string :=
  match e with
  | Open n | Toggle n | BringToFront n => Some n
  | TitlebarMouseDown n _ _ | HandleMouseDown n _ _ _ => Some n
  | _ => None
  end.

(** The sample page after its first window was maximized. *)
Definition sampleMaximized : World :=
  run sampleStylesheet [Maximize "about"%string] sampleStart.

(** The entries of the two sample windows after start-up. *)
Definition sampleAbout : WindowData :=
  {| element := mkElement (mkClassList true false false)
                  (mkRect 100 100 500 400) (Some 201);
     state := open;
     originalPosition := mkPosition 0 0;
     originalSize := mkSize 0 0 |}.
Definition sampleProjects : WindowData :=
  {| element := mkElement (mkClassList false false false)
                  (mkRect 200 150 600 450) None;
     state := closed;
     originalPosition := mkPosition 0 0;
     originalSize := mkSize 0 0 |}.

(** What [bringToFront] makes of the entry it raises, and of the others. *)
Definition fronted (z : Z) (wd : WindowData) : WindowData :=
  set_element (add_active (remove_active (set_zIndex z (element wd)))) wd.
Definition unfocused (wd : WindowData) : WindowData :=
  set_element (remove_active (element wd)) wd.


(** The length a style holds after [v] was assigned to its [width] or
    [height], which held [old]. *)
Definition keptLength (v old : Q) : Q := if Qltb v 0 then old else v.

(** The pass on a window that is displayed and not maximized, as a function
    of its box. *)
Definition containedBox (s : World) (b : Rect) : Rect :=
  let padding := viewportPadding s in
  let maxWidth := (clientWidth s - padding * 2)%Q in
  let maxHeight := (clientHeight s - menuBarHeight s - padding * 2)%Q in
  let w := if Qltb 0 maxWidth
           then keptLength (Math_min (rWidth b) maxWidth) (rWidth b)
           else rWidth b in
  let h := if Qltb 0 maxHeight
           then keptLength (Math_min (rHeight b) maxHeight) (rHeight b)
           else rHeight b in
  mkRect
    (clamp (rLeft b) padding (Math_max padding (clientWidth s - w - padding)%Q))
    (clamp (rTop b) (menuBarHeight s + padding)%Q
       (Math_max (menuBarHeight s + padding)%Q (clientHeight s - h - padding)%Q))
    w h.

(** The sample page after its first window was dragged into the top-left
    corner of the work area. *)
Definition sampleCornered : World :=
  run sampleStylesheet
    [ TitlebarMouseDown "about"%string 110 110; MouseMove 0 0; MouseUp ]
    sampleStart.

(** The sample page squeezed to a viewport 20 pixels wide, with a drag of
    its first window under way. *)
Definition sampleSqueezedDrag : World :=
  run sampleStylesheet
    [ ViewportResize 20 600; TitlebarMouseDown "about"%string 50 110 ]
    sampleStart.

(** The sample page with a drag of its first window under way. *)
Definition sampleDrag : World :=
  run sampleStylesheet [ TitlebarMouseDown "about"%string 110 105 ] sampleStart.

(** The sample page with a resize of its first window by the left handle
    under way, and by the bottom-right handle. *)
Definition sampleResizeLeft : World :=
  run sampleStylesheet [ HandleMouseDown "about"%string dir_left 100 300 ]
    sampleStart.
Definition sampleResizeCorner : World :=
  run sampleStylesheet [ HandleMouseDown "about"%string dir_bottom_right 600 500 ]
    sampleStart.

(** ** Focus and stacking: the properties *)

Definition isActive (wd : WindowData) : Prop :=
  cl_active (classList (element wd)) = true.

(** The stacking order of a window is its inline [style.zIndex]. *)
Definition stackOrder (wd : WindowData) : option Z := zIndex (element wd).

(** A stacking order lies below [z]: it was never assigned, or is smaller. *)
Definition below (o : option Z) (z : Z) : Prop :=
  match o with
  | None => True
  | Some z' => z' < z
  end.

(** A stacking order does not lie above [z]. *)
Definition notAbove (o : option Z) (z : Z) : Prop :=
  match o with
  | None => True
  | Some z' => z' <= z
  end.

(** The invariant of the data model (section 3). *)
Definition atMostOneActive (s : World) : Prop :=
  forall n m wd wd',
    windows s !! n = Some wd -> windows s !! m = Some wd' ->
    isActive wd -> isActive wd' -> n = m.

(** The active window has the greatest stacking order; every other window
    lies strictly below it as long as the counter has not reached
    [saturation]. *)
Definition activeOnTop (s : World) : Prop :=
  forall n wd,
    windows s !! n = Some wd -> isActive wd ->
    exists z, stackOrder wd = Some z /\
      forall m wd', m <> n -> windows s !! m = Some wd' ->
                    notAbove (stackOrder wd') z /\
                    (maxZIndex s < saturation -> below (stackOrder wd') z).

Definition minimizedNotActive (s : World) : Prop :=
  forall n wd,
    windows s !! n = Some wd -> state wd = minimized -> ~ isActive wd.

Definition focusInvariant (s : World) : Prop :=
  atMostOneActive s /\ activeOnTop s /\ minimizedNotActive s.

(** The counter bounds every stacking order and every value it handed
    out, and lies between its seed and [saturation]; below [saturation] no
    value was handed out twice. *)
Definition zBounded (s : World) : Prop :=
  forall n wd z,
    windows s !! n = Some wd -> stackOrder wd = Some z -> z <= maxZIndex s.

Definition zRecorded (s : World) : Prop :=
  forall n wd z,
    windows s !! n = Some wd -> stackOrder wd = Some z -> z ∈ zHistory s.

Definition counterInvariant (s : World) : Prop :=
  zBounded s /\ zRecorded s /\ 200 <= maxZIndex s <= saturation /\
  (maxZIndex s < saturation -> NoDup (zHistory s)) /\
  forall z, z ∈ zHistory s -> 200 < z <= maxZIndex s.

(** A registry right after the registration loop: every window closed,
    not active, without stacking order; the counter at its seed. *)
Definition fresh (s : World) : Prop :=
  (forall n wd, windows s !! n = Some wd ->
     cl_active (classList (element wd)) = false /\
     stackOrder wd = None /\ state wd = closed) /\
  maxZIndex s = 200 /\ zHistory s = [].

(** The events that bring a window to the front and leave its state as it
    is; [openWindow] and [toggleWindow] restore a minimized window first. *)
Definition keepsState (e : Event) : bool :=
  match e with
  | BringToFront _ | TitlebarMouseDown _ _ _ | HandleMouseDown _ _ _ _ => true
  | _ => false
  end.

(** The guard of the amended invariant: [bringToFront], drag start and
    resize start are not applied to a minimized window. *)
Definition sparesMinimized (e : Event) (s : World) : Prop :=
  keepsState e = true ->
  forall n wd, frontTarget e = Some n -> windows s !! n = Some wd ->
               state wd <> minimized.

Definition anyEvent (e : Event) (s : World) : Prop := True.

(** *** How a handler changes focus and stacking

    Every entry of the registry after the handler comes from an entry
    before it, related by [R]. *)
Definition entriesFrom (R : string -> WindowData -> WindowData -> Prop)
    (m m' : gmap string WindowData) : Prop :=
  forall n wd', m' !! n = Some wd' -> exists wd, m !! n = Some wd /\ R n wd wd'.

(** The entry keeps its stacking order, active class and state. *)
Definition sameFocus (_ : string) (wd wd' : WindowData) : Prop :=
  stackOrder wd' = stackOrder wd /\
  cl_active (classList (element wd')) = cl_active (classList (element wd)) /\
  state wd' = state wd.

(** The entry keeps its stacking order, does not become active, and is not
    left both active and minimized. *)
Definition quietEntry (_ : string) (wd wd' : WindowData) : Prop :=
  stackOrder wd' = stackOrder wd /\
  (isActive wd' -> isActive wd) /\
  (isActive wd' -> state wd' = minimized -> state wd = minimized).

(** The entry of [target] is raised to [z] and made active; every other
    entry loses the active class. *)
Definition raisedEntry (keeps : bool) (target : string) (z : Z)
    (n : string) (wd wd' : WindowData) : Prop :=
  if decide (n = target)
  then stackOrder wd' = Some z /\ isActive wd' /\
       (if keeps then state wd' = state wd else state wd' <> minimized)
  else stackOrder wd' = stackOrder wd /\
       cl_active (classList (element wd')) = false /\
       state wd' = state wd.

Definition still (s s' : World) : Prop :=
  maxZIndex s' = maxZIndex s /\ zHistory s' = zHistory s /\
  entriesFrom sameFocus (windows s) (windows s').

Definition quiet (s s' : World) : Prop :=
  (maxZIndex s' = maxZIndex s \/ maxZIndex s' = addOne (maxZIndex s)) /\
  zHistory s' = zHistory s /\
  entriesFrom quietEntry (windows s) (windows s').

Definition raised (keeps : bool) (target : string) (s s' : World) : Prop :=
  maxZIndex s' = addOne (maxZIndex s) /\
  zHistory s' = addOne (maxZIndex s) :: zHistory s /\
  entriesFrom (raisedEntry keeps target (addOne (maxZIndex s)))
    (windows s) (windows s').

(** Writes that leave focus and stacking alone. *)
Definition keepsFocus (f : Element -> Element) : Prop :=
  forall e, zIndex (f e) = zIndex e /\
            cl_active (classList (f e)) = cl_active (classList e).



(** The page of the viewport scenario of the specification: 1200 by 800
    pixels, menu bar 30, one window. *)
Definition widePage : Page :=
  {| page_menuBar := Some 30%Q;
     page_windows := [ ("about"%string, mkRect 100 100 500 400) ];
     page_dock := [ "about"%string ];
     page_width := 1200;
     page_height := 800 |}.

(** The sample page in a viewport 300 pixels wide: the first window was
    hidden behind the second while the viewport shrank, was brought back
    from the dock at its old width, and is being dragged. *)
Definition sampleNarrowDrag : World :=
  run sampleStylesheet
    [ Open "projects"%string; ViewportResize 300 600; Toggle "about"%string;
      TitlebarMouseDown "about"%string 50 110 ]
    sampleStart.


(** A page with a window, and its dock icon, whose name holds a double
    quote: 3.5, a double quote, and the word disk. *)
Definition quotedName : string :=
  "3.5" +:+ String (Ascii.ascii_of_N 34) " disk".
Definition quotedPage : Page :=
  {| page_menuBar := Some 30%Q;
     page_windows := [ ("about"%string, mkRect 100 100 500 400);
                       (quotedName, mkRect 200 150 600 450) ];
     page_dock := [ "about"%string; quotedName ];
     page_width := 1000;
     page_height := 800 |}.
Definition quotedStart : World := final (init sampleStylesheet quotedPage).

(** The sample page after its first window was brought to the front [n]
    more times, and after as many times as take the counter from 201 to
    [saturation]. *)
Definition activations (n : N) (s : World) : World :=
  N.iter n (fun s => final (bringToFront "about" s)) s.
Definition sampleSaturated : World :=
  activations (Z.to_N (saturation - 201)) sampleStart.

(** ** The sum of the stacking counter *)

Lemma roundToDouble_exact z : Z.abs z < saturation -> roundToDouble z = z.
Proof.
  intros H. unfold roundToDouble.
  assert (He : Z.log2 (Z.abs z) - 52 <= 0).
  { destruct (Z.eq_dec (Z.abs z) 0) as [E|E].
    - rewrite E. simpl. lia.
    - assert (Z.log2 (Z.abs z) < 53); [|lia].
      apply Z.log2_lt_pow2; [lia|exact H]. }
  apply Z.leb_le in He. rewrite He. reflexivity.
Qed.

Lemma addOne_below x : 0 <= x -> x + 1 < saturation -> addOne x = x + 1.
Proof. intros H0 H. apply roundToDouble_exact. lia. Qed.

(** 2^53 + 1 lies half way between the doubles 2^53 and 2^53 + 2 and is
    rounded to the first, whose significand is even. *)
Lemma addOne_saturation : addOne saturation = saturation.
Proof. vm_compute. reflexivity. Qed.

(** Beyond 2^53 the doubles are the even numbers, then the multiples of
    four: 2^53 + 3 lies half way between 2^53 + 2 and 2^53 + 4 and goes to
    the second. *)
Example roundToDouble_beyond_saturation :
  roundToDouble (saturation + 1) = saturation /\
  roundToDouble (saturation + 2) = saturation + 2 /\
  roundToDouble (saturation + 3) = saturation + 4 /\
  roundToDouble (2 * saturation + 2) = 2 * saturation /\
  roundToDouble (2 * saturation + 6) = 2 * saturation + 8.
Proof. vm_compute. repeat split. Qed.

Lemma addOne_range x :
  0 <= x <= saturation ->
  x <= addOne x <= saturation /\
  (x < saturation -> addOne x = x + 1) /\
  (x = saturation -> addOne x = x).
Proof.
  intros [H0 H1].
  assert (C : x + 1 < saturation \/ x = saturation - 1 \/ x = saturation)
    by (unfold saturation in *; lia).
  destruct C as [C|[->| ->]].
  - rewrite (addOne_below x H0 C). unfold saturation in *. lia.
  - replace (addOne (saturation - 1)) with saturation by (vm_compute; reflexivity).
    unfold saturation. lia.
  - rewrite addOne_saturation. unfold saturation. lia.
Qed.

(** ** The dock icon *)

Lemma updateDockIcon_cases name b s :
  (plainName name = true /\
   updateDockIcon name b s
     = Done (set_dockIcons (alter (fun _ => b) name (dockIcons s)) s)) \/
  (plainName name = false /\ updateDockIcon name b s = Threw s).
Proof. unfold updateDockIcon. destruct (plainName name); auto. Qed.

(** Whatever the outcome, [updateDockIcon] leaves everything but the dock
    icons as it is. *)
Lemma updateDockIcon_frame name b s :
  let s' := final (updateDockIcon name b s) in
  windows s' = windows s /\ activeWindow s' = activeWindow s /\
  maxZIndex s' = maxZIndex s /\ zHistory s' = zHistory s /\
  clientWidth s' = clientWidth s /\ clientHeight s' = clientHeight s /\
  menuBarHeight s' = menuBarHeight s /\ viewportPadding s' = viewportPadding s.
Proof. unfold updateDockIcon. destruct (plainName name); done. Qed.

(** *** Style lengths *)

Lemma set_width_style v e :
  classList (set_width v e) = classList e /\ zIndex (set_width v e) = zIndex e /\
  style (set_width v e)
    = mkRect (rLeft (style e)) (rTop (style e))
        (keptLength v (rWidth (style e))) (rHeight (style e)).
Proof.
  unfold set_width, keptLength. destruct (Qltb v 0); [|done].
  by destruct e as [c [l t w h] z].
Qed.

Lemma set_height_style v e :
  classList (set_height v e) = classList e /\ zIndex (set_height v e) = zIndex e /\
  style (set_height v e)
    = mkRect (rLeft (style e)) (rTop (style e)) (rWidth (style e))
        (keptLength v (rHeight (style e))).
Proof.
  unfold set_height, keptLength. destruct (Qltb v 0); [|done].
  by destruct e as [c [l t w h] z].
Qed.

(** ** Basic facts *)

Ltac case_lookup s n :=
  unfold lookupWindow;
  let E := fresh "Hlk" in
  destruct (windows s !! n) eqn:E;
  [ | case_bool_decide ].

Lemma lookupWindow_own s n wd :
  windows s !! n = Some wd -> lookupWindow s n = Own wd.
Proof. intros H. unfold lookupWindow. by rewrite H. Qed.

(** *** The unknown-name guard *)

(** A name that [this.windows] neither holds nor inherits is ignored by
    the six entry points. *)
Lemma undefined_name_ignored css s name :
  lookupWindow s name = Undefined ->
  openWindow css name s = Done s /\ closeWindow name s = Done s /\
  minimizeWindow name s = Done s /\ maximizeWindow css name s = Done s /\
  toggleWindow css name s = Done s /\ bringToFront name s = Done s.
Proof.
  intros H.
  unfold openWindow, closeWindow, minimizeWindow, maximizeWindow,
    toggleWindow, bringToFront.
  rewrite H. done.
Qed.

(** *** The recorded active window *)

Lemma bringToFront_activeWindow name s :
  activeWindow (final (bringToFront name s)) = activeWindow s \/
  activeWindow (final (bringToFront name s)) = Some name.
Proof. unfold bringToFront. case_lookup s name; simpl; auto. Qed.

Lemma updateDockIcon_activeWindow name b s :
  activeWindow (final (updateDockIcon name b s)) = activeWindow s.
Proof. apply (updateDockIcon_frame name b s). Qed.

Lemma openWindow_activeWindow css name s :
  activeWindow (final (openWindow css name s)) = activeWindow s \/
  activeWindow (final (openWindow css name s)) = Some name.
Proof.
  unfold openWindow. case_lookup s name; simpl; auto.
  - match goal with |- context [bringToFront name ?t] =>
      destruct (bringToFront_activeWindow name t) as [Hb|Hb];
      destruct (bringToFront name t) eqn:E; simpl in *;
      rewrite ?updateDockIcon_activeWindow; auto
    end.
  - destruct (bringToFront_activeWindow name s) as [Hb|Hb];
      destruct (bringToFront name s) eqn:E; simpl in *;
      rewrite ?updateDockIcon_activeWindow; auto.
Qed.

Lemma closeWindow_activeWindow name s :
  activeWindow (final (closeWindow name s)) = activeWindow s.
Proof.
  unfold closeWindow. case_lookup s name; try done.
  by rewrite updateDockIcon_activeWindow.
Qed.

Lemma minimizeWindow_activeWindow name s :
  activeWindow (final (minimizeWindow name s)) = activeWindow s.
Proof.
  unfold minimizeWindow. case_lookup s name; try done.
  by rewrite updateDockIcon_activeWindow.
Qed.

Lemma maximizeWindow_activeWindow css name s :
  activeWindow (final (maximizeWindow css name s)) = activeWindow s.
Proof. unfold maximizeWindow. case_lookup s name; done. Qed.

Lemma toggleWindow_activeWindow css name s :
  activeWindow (final (toggleWindow css name s)) = activeWindow s \/
  activeWindow (final (toggleWindow css name s)) = Some name.
Proof.
  unfold toggleWindow. case_lookup s name; simpl; auto.
  destruct (state w); auto using openWindow_activeWindow, bringToFront_activeWindow.
Qed.

Lemma onTitlebarMouseDown_activeWindow css name x y s :
  activeWindow (final (onTitlebarMouseDown css name x y s)) = activeWindow s \/
  activeWindow (final (onTitlebarMouseDown css name x y s)) = Some name.
Proof.
  unfold onTitlebarMouseDown. destruct (windows s !! name); simpl; auto.
  destruct (bringToFront_activeWindow name s) as [H|H];
    destruct (bringToFront name s) eqn:E; simpl in *; auto;
    destruct (windows s0 !! name); simpl; auto;
    destruct (negb _); simpl; auto.
Qed.

Lemma onHandleMouseDown_activeWindow css name d x y s :
  activeWindow (final (onHandleMouseDown css name d x y s)) = activeWindow s \/
  activeWindow (final (onHandleMouseDown css name d x y s)) = Some name.
Proof.
  unfold onHandleMouseDown. destruct (windows s !! name); simpl; auto.
  destruct (cl_maximized _); simpl; auto.
  destruct (bringToFront_activeWindow name s) as [H|H];
    destruct (bringToFront name s) eqn:E; simpl in *; auto;
    destruct (windows s0 !! name); simpl; auto.
Qed.

Lemma handleResize_activeWindow x y s :
  activeWindow (final (handleResize x y s)) = activeWindow s.
Proof.
  unfold handleResize. destruct (resizeTarget s) as [t|]; [|done].
  case_lookup s t; try done.
  destruct (resizeStart s), (resizeDirection s); done.
Qed.

Lemma onMouseMove_activeWindow css x y s :
  activeWindow (final (onMouseMove css x y s)) = activeWindow s.
Proof.
  unfold onMouseMove.
  destruct (resizing s && truthyName (resizeTarget s));
    [apply handleResize_activeWindow|].
  destruct (dragging s && truthyName (currentDraggedWindow s)); [|done].
  destruct (currentDraggedWindow s) as [t|]; [|done].
  case_lookup s t; try done.
  destruct (cl_maximized (classList (element w))); simpl.
  - unfold maximizeWindow. rewrite (lookupWindow_own _ _ _ Hlk). simpl.
    rewrite lookup_insert_eq. simpl. rewrite lookup_insert_eq. done.
  - rewrite Hlk. done.
Qed.

Lemma onMouseUp_activeWindow s :
  activeWindow (final (onMouseUp s)) = activeWindow s.
Proof. unfold onMouseUp. destruct (dragging s); simpl; destruct (resizing s); done. Qed.

(** ** Rational arithmetic of the handlers *)

Lemma Qltb_lt a b : Qltb a b = true <-> (a < b)%Q.
Proof.
  unfold Qltb. rewrite Qlt_alt. destruct (a ?= b)%Q; split; congruence.
Qed.

Lemma Qltb_ge a b : Qltb a b = false <-> (b <= a)%Q.
Proof.
  rewrite <- not_true_iff_false, Qltb_lt. split.
  - apply Qnot_lt_le.
  - apply Qle_not_lt.
Qed.

Lemma Qleb_le a b : Qleb a b = true <-> (a <= b)%Q.
Proof.
  unfold Qleb. rewrite Qle_alt. destruct (a ?= b)%Q; split; congruence.
Qed.

Lemma Qleb_gt a b : Qleb a b = false <-> (b < a)%Q.
Proof.
  rewrite <- not_true_iff_false, Qleb_le. split.
  - apply Qnot_le_lt.
  - apply Qlt_not_le.
Qed.

(** [Math.max] and [Math.min] return one of their arguments. *)
Lemma Math_max_cases a b :
  (Math_max a b = a /\ (b <= a)%Q) \/ (Math_max a b = b /\ (a < b)%Q).
Proof.
  unfold Math_max, Qmax, GenericMinMax.gmax.
  destruct (Qcompare_spec a b) as [H|H|H].
  - left. split; [done|]. rewrite H. apply Qle_refl.
  - right. done.
  - left. split; [done|]. by apply Qlt_le_weak.
Qed.

Lemma Math_min_cases a b :
  (Math_min a b = a /\ (a <= b)%Q) \/ (Math_min a b = b /\ (b < a)%Q).
Proof.
  unfold Math_min, Qmin, GenericMinMax.gmin.
  destruct (Qcompare_spec a b) as [H|H|H].
  - left. split; [done|]. rewrite H. apply Qle_refl.
  - left. split; [done|]. by apply Qlt_le_weak.
  - right. done.
Qed.

Lemma Math_max_ge_l a b : (a <= Math_max a b)%Q.
Proof. destruct (Math_max_cases a b) as [[-> H]|[-> H]]; lra. Qed.
Lemma Math_max_ge_r a b : (b <= Math_max a b)%Q.
Proof. destruct (Math_max_cases a b) as [[-> H]|[-> H]]; lra. Qed.
Lemma Math_min_le_l a b : (Math_min a b <= a)%Q.
Proof. destruct (Math_min_cases a b) as [[-> H]|[-> H]]; lra. Qed.
Lemma Math_min_le_r a b : (Math_min a b <= b)%Q.
Proof. destruct (Math_min_cases a b) as [[-> H]|[-> H]]; lra. Qed.

Lemma Math_min_id_l a b : (a <= b)%Q -> Math_min a b = a.
Proof. intros H. destruct (Math_min_cases a b) as [[-> _]|[_ H']]; [done|lra]. Qed.
Lemma Math_max_id_l a b : (b <= a)%Q -> Math_max a b = a.
Proof. intros H. destruct (Math_max_cases a b) as [[-> _]|[_ H']]; [done|lra]. Qed.

(** Subtracting the desktop origin leaves the number as it is. *)
Lemma Qminus_0_r_eq (x : Q) : (x - 0)%Q = x.
Proof.
  destruct x as [n d]. unfold Qminus, Qplus, Qopp. simpl.
  f_equal; [lia | apply Pos.mul_1_r].
Qed.

Lemma clamp_bounds v lo hi :
  (lo <= hi)%Q -> (lo <= clamp v lo hi)%Q /\ (clamp v lo hi <= hi)%Q.
Proof.
  intros H. unfold clamp.
  destruct (Math_max_cases v lo) as [[E1 H1]|[E1 H1]];
    destruct (Math_min_cases (Math_max v lo) hi) as [[E2 H2]|[E2 H2]];
    rewrite E2; rewrite ?E1 in *; split; lra.
Qed.

Lemma clamp_fixed v lo hi :
  (lo <= v)%Q -> (v <= hi)%Q -> clamp v lo hi = v.
Proof.
  intros H1 H2. unfold clamp.
  rewrite (Math_max_id_l v lo H1). by apply Math_min_id_l.
Qed.

Lemma clamp_idempotent v lo hi :
  (lo <= hi)%Q -> clamp (clamp v lo hi) lo hi = clamp v lo hi.
Proof.
  intros H. destruct (clamp_bounds v lo hi H). by apply clamp_fixed.
Qed.

Lemma Math_min_idempotent a b : Math_min (Math_min a b) b = Math_min a b.
Proof.
  apply Math_min_id_l, Math_min_le_r.
Qed.

(** ** Viewport containment *)

Lemma getBoundingClientRect_free css s e :
  cl_maximized (classList e) || displayNone css (classList e) = false ->
  getBoundingClientRect css s e = style e.
Proof.
  intros H. apply orb_false_elim in H as [Hm Hd].
  unfold getBoundingClientRect. by rewrite Hd, Hm.
Qed.

Lemma ensureWindowInViewport_free css s e :
  cl_maximized (classList e) || displayNone css (classList e) = false ->
  ensureWindowInViewport css s e = set_style (containedBox s (style e)) e.
Proof.
  intros H. unfold ensureWindowInViewport. rewrite H.
  assert (Hr : forall x, classList x = classList e ->
                         getBoundingClientRect css s x = style x).
  { intros x Hx. apply getBoundingClientRect_free. by rewrite Hx. }
  destruct e as [c [l t w h] z].
  unfold containedBox, set_width, set_height, keptLength.
  cbn [classList style rLeft rTop rWidth rHeight] in *.
  destruct (Qltb 0 (clientWidth s - viewportPadding s * 2)) eqn:Hw;
    destruct (Qltb 0 (clientHeight s - menuBarHeight s - viewportPadding s * 2)) eqn:Hh;
    repeat (unfold set_style;
            cbn [classList style zIndex rLeft rTop rWidth rHeight];
            first
      [ match goal with
        | |- context [getBoundingClientRect css s (mkElement ?c' ?b ?z')] =>
            rewrite (Hr (mkElement c' b z') eq_refl)
        end
      | match goal with
        | |- context [getBoundingClientRect css s
                        (if Qltb ?a 0 then _ else _)] =>
            lazymatch a with
            | context [getBoundingClientRect] => fail
            | _ => destruct (Qltb a 0)
            end
        end ]);
    unfold desktopRect; simpl; rewrite !Qminus_0_r_eq; reflexivity.
Qed.

Lemma ensureWindowInViewport_skipped css s e :
  cl_maximized (classList e) || displayNone css (classList e) = true ->
  ensureWindowInViewport css s e = e.
Proof. intros H. unfold ensureWindowInViewport. by rewrite H. Qed.

(** Assigning a length capped at a positive [cap] a second time changes
    nothing: a negative length stays, any other is at most [cap] after the
    first assignment. *)
Lemma keptLength_min_idempotent v cap :
  (0 < cap)%Q ->
  let v' := keptLength (Math_min v cap) v in
  keptLength (Math_min v' cap) v' = v'.
Proof.
  intros Hc. unfold keptLength. simpl.
  destruct (Qltb (Math_min v cap) 0) eqn:E1.
  - by rewrite E1.
  - rewrite Math_min_idempotent. by rewrite E1.
Qed.

Lemma containedBox_idempotent s b :
  containedBox s (containedBox s b) = containedBox s b.
Proof.
  unfold containedBox. simpl.
  destruct (Qltb 0 (clientWidth s - viewportPadding s * 2)) eqn:Hw;
    destruct (Qltb 0 (clientHeight s - menuBarHeight s - viewportPadding s * 2)) eqn:Hh;
    rewrite ?Qltb_lt in *;
    rewrite ?keptLength_min_idempotent by assumption;
    rewrite !clamp_idempotent by apply Math_max_ge_l; reflexivity.
Qed.

Lemma ensureWindowInViewport_world css s s' e :
  clientWidth s' = clientWidth s -> clientHeight s' = clientHeight s ->
  menuBarHeight s' = menuBarHeight s -> viewportPadding s' = viewportPadding s ->
  ensureWindowInViewport css s' e = ensureWindowInViewport css s e.
Proof.
  intros Hw Hh Hm Hp.
  unfold ensureWindowInViewport, getBoundingClientRect.
  by rewrite Hw, Hh, Hm, Hp.
Qed.

(** A second pass over all windows changes nothing. *)
Lemma ensureAllWindowsInViewport_idempotent css s :
  ensureAllWindowsInViewport css (ensureAllWindowsInViewport css s)
  = ensureAllWindowsInViewport css s.
Proof.
  unfold ensureAllWindowsInViewport at 1 3. unfold set_windows. simpl. f_equal.
  rewrite <- map_fmap_compose. apply map_fmap_ext. intros k wd _.
  simpl. unfold set_element. simpl. f_equal.
  rewrite (ensureWindowInViewport_world css s) by reflexivity.
  set (e := element wd).
  destruct (cl_maximized (classList e) || displayNone css (classList e)) eqn:H.
  - rewrite (ensureWindowInViewport_skipped css s e H).
    by apply ensureWindowInViewport_skipped.
  - rewrite (ensureWindowInViewport_free css s e H).
    rewrite ensureWindowInViewport_free by exact H.
    destruct e as [c b z]. unfold set_style. simpl.
    by rewrite containedBox_idempotent.
Qed.

(** C6. The containment pass is idempotent: on every window element, in
    every viewport, a second pass right after the first changes nothing. *)
Theorem ensureWindowInViewport_idempotent css s e :
  ensureWindowInViewport css s (ensureWindowInViewport css s e)
  = ensureWindowInViewport css s e.
Proof.
  destruct (cl_maximized (classList e) || displayNone css (classList e)) eqn:H.
  - by rewrite !(ensureWindowInViewport_skipped css s e H).
  - rewrite (ensureWindowInViewport_free css s e H).
    rewrite ensureWindowInViewport_free by exact H.
    destruct e as [c b z]. unfold set_style. simpl.
    by rewrite containedBox_idempotent.
Qed.

(** ** Maximize and restore *)

Lemma ensureWindowInViewport_set_windows css ws s e :
  ensureWindowInViewport css (set_windows ws s) e = ensureWindowInViewport css s e.
Proof. reflexivity. Qed.

Lemma restore_own_box e :
  cl_maximized (classList e) = false ->
  remove_maximized (add_maximized e) = e /\
  set_top (rTop (style e)) (set_left (rLeft (style e)) e) = e /\
  set_height (rHeight (style e)) (set_width (rWidth (style e)) e) = e.
Proof.
  destruct e as [[a m n] [l t w h] z]. simpl. intros ->.
  split; [done|]. split; [done|].
  unfold set_height, set_width. simpl.
  destruct (Qltb w 0), (Qltb h 0); reflexivity.
Qed.

(** C5, as stated, fails: the window of [sampleCornered] was dragged to
    the corner (0, 30) of the work area; maximizing and restoring it puts
    it at (12, 42), inside the padding. *)
Lemma maximize_restore_moves_cornered_window :
  exists wd s1 s2 wd2,
    windows sampleCornered !! "about"%string = Some wd /\
    cl_maximized (classList (element wd)) = false /\
    style (element wd) = mkRect 0 30 500 400 /\
    maximizeWindow sampleStylesheet "about" sampleCornered = Done s1 /\
    maximizeWindow sampleStylesheet "about" s1 = Done s2 /\
    windows s2 !! "about"%string = Some wd2 /\
    style (element wd2) = mkRect 12 42 500 400 /\
    ~ (rLeft (style (element wd2)) == rLeft (style (element wd)))%Q /\
    ~ (rTop (style (element wd2)) == rTop (style (element wd)))%Q.
Proof.
  eexists _, _, _, _.
  split; [vm_compute; reflexivity|].
  split; [reflexivity|].
  split; [reflexivity|].
  split; [vm_compute; reflexivity|].
  split; [vm_compute; reflexivity|].
  split; [vm_compute; reflexivity|].
  split; [reflexivity|].
  split; vm_compute; discriminate.
Qed.

(** C5, amended. For a registered window that is not maximized and whose
    element the containment pass would leave as it is, maximizing and
    maximizing again, with no viewport change in between, gives back the
    element exactly: position, size and classes. *)
Theorem maximize_restore_roundtrip css s name wd :
  windows s !! name = Some wd ->
  cl_maximized (classList (element wd)) = false ->
  ensureWindowInViewport css s (element wd) = element wd ->
  exists s1 s2 wd2,
    maximizeWindow css name s = Done s1 /\
    maximizeWindow css name s1 = Done s2 /\
    windows s2 !! name = Some wd2 /\
    element wd2 = element wd /\
    state wd2 = state wd.
Proof.
  intros H Hm Hfix.
  destruct (restore_own_box (element wd) Hm) as (Hcl & Hpos & Hsz).
  unfold maximizeWindow. rewrite (lookupWindow_own _ _ _ H).
  eexists _, _, _. split; [reflexivity|].
  unfold lookupWindow. simpl. rewrite lookup_insert_eq.
  split; [reflexivity|]. simpl. rewrite lookup_insert_eq.
  split; [reflexivity|].
  unfold maximizeEntry at 1. simpl.
  unfold maximizeEntry. rewrite Hm. simpl.
  rewrite Hcl.
  assert (Hw3 :
    (let w2 :=
       if truthy (rLeft (getBoundingClientRect css s (element wd)))
          && truthy (rTop (getBoundingClientRect css s (element wd)))
       then set_top (rTop (getBoundingClientRect css s (element wd)))
              (set_left (rLeft (getBoundingClientRect css s (element wd)))
                 (element wd))
       else element wd in
     if truthy (rWidth (getBoundingClientRect css s (element wd)))
        && truthy (rHeight (getBoundingClientRect css s (element wd)))
     then set_height (rHeight (getBoundingClientRect css s (element wd)))
            (set_width (rWidth (getBoundingClientRect css s (element wd))) w2)
     else w2) = element wd).
  { unfold getBoundingClientRect. rewrite Hm.
    destruct (displayNone css (classList (element wd))); simpl.
    - reflexivity.
    - destruct (truthy _ && truthy _); destruct (truthy _ && truthy _);
        rewrite ?Hpos, ?Hsz; reflexivity. }
  simpl in Hw3.
  split; [|reflexivity].
  match goal with |- ensureWindowInViewport css ?s' ?x = _ =>
    change (ensureWindowInViewport css s x = element wd)
  end.
  rewrite Hw3. exact Hfix.
Qed.

(** The window of the sample page stands inside the padded work area:
    maximizing and restoring gives it back. *)
Lemma maximize_restore_roundtrip_witness :
  exists s1 s2 wd2,
    maximizeWindow sampleStylesheet "about" sampleStart = Done s1 /\
    maximizeWindow sampleStylesheet "about" s1 = Done s2 /\
    windows s2 !! "about"%string = Some wd2 /\
    element wd2 = element sampleAbout /\
    state wd2 = state sampleAbout.
Proof.
  apply (maximize_restore_roundtrip sampleStylesheet sampleStart "about" sampleAbout).
  - vm_compute. reflexivity.
  - reflexivity.
  - vm_compute. reflexivity.
Defined.

(** ** The drag clamp *)

Lemma offset_after_move css s ws e l t :
  offsetWidth css (set_windows ws s) (set_top t (set_left l e)) = offsetWidth css s e /\
  offsetHeight css (set_windows ws s) (set_top t (set_left l e)) = offsetHeight css s e.
Proof.
  unfold offsetWidth, offsetHeight, getBoundingClientRect.
  destruct e as [c [l0 t0 w0 h0] z]. simpl.
  destruct (displayNone css c), (cl_maximized c); done.
Qed.

Lemma drag_clamp_bounds lo v hi :
  (lo <= Math_max lo (Math_min v hi))%Q /\
  ((lo <= hi)%Q -> (Math_max lo (Math_min v hi) <= hi)%Q) /\
  ((hi < lo)%Q -> Math_max lo (Math_min v hi) = lo).
Proof.
  split; [apply Math_max_ge_l|]. split.
  - intros H.
    destruct (Math_max_cases lo (Math_min v hi)) as [[-> _]|[-> _]]; [done|].
    apply Math_min_le_r.
  - intros H. apply Math_max_id_l.
    pose proof (Math_min_le_r v hi). lra.
Qed.

(** The last block of the drag branch (lines 143-157), for the state [s1]
    and the entry [wd1] it works on. *)
Lemma drag_place css s1 target wd1 newX newY :
  windows s1 !! target = Some wd1 ->
  exists wd',
    windows
      (modifyElement target
         (fun e =>
            set_top (Math_max (menuBarHeight s1)
                       (Math_min newY (clientHeight s1 - offsetHeight css s1 (element wd1))%Q))
              (set_left (Math_max 0
                           (Math_min newX (clientWidth s1 - offsetWidth css s1 (element wd1))%Q))
                 e)) s1) !! target = Some wd' /\
    forall ws,
      let s' := set_windows ws s1 in
      let windowWidth := offsetWidth css s' (element wd') in
      let windowHeight := offsetHeight css s' (element wd') in
      (0 <= rLeft (style (element wd')))%Q /\
      ((windowWidth <= clientWidth s1)%Q ->
         (rLeft (style (element wd')) <= clientWidth s1 - windowWidth)%Q) /\
      ((clientWidth s1 < windowWidth)%Q -> rLeft (style (element wd')) = 0%Q) /\
      (menuBarHeight s1 <= rTop (style (element wd')))%Q /\
      ((menuBarHeight s1 + windowHeight <= clientHeight s1)%Q ->
         (rTop (style (element wd')) <= clientHeight s1 - windowHeight)%Q) /\
      ((clientHeight s1 < menuBarHeight s1 + windowHeight)%Q ->
         rTop (style (element wd')) = menuBarHeight s1).
Proof.
  intros H. eexists. split.
  { unfold modifyElement, modifyWindow. simpl. rewrite lookup_alter_eq, H.
    reflexivity. }
  intros ws. simpl.
  destruct (offset_after_move css s1 ws (element wd1)
              (Math_max 0 (Math_min newX
                 (clientWidth s1 - offsetWidth css s1 (element wd1))%Q))
              (Math_max (menuBarHeight s1) (Math_min newY
                 (clientHeight s1 - offsetHeight css s1 (element wd1))%Q)))
    as [-> ->].
  destruct (element wd1) as [c [l0 t0 w0 h0] z] eqn:He. simpl.
  set (w := offsetWidth css s1 _). set (h := offsetHeight css s1 _).
  destruct (drag_clamp_bounds 0 newX (clientWidth s1 - w)%Q) as (A1 & A2 & A3).
  destruct (drag_clamp_bounds (menuBarHeight s1) newY (clientHeight s1 - h)%Q)
    as (B1 & B2 & B3).
  split; [exact A1|]. split; [intros Hw; apply A2; lra|].
  split; [intros Hw; apply A3; lra|].
  split; [exact B1|]. split; [intros Hh; apply B2; lra|].
  intros Hh; apply B3; lra.
Qed.

(** C3, as stated, fails: in a viewport 20 pixels wide the window, 500
    pixels wide, is placed at left 0, which is not within [0, 20 - 500]. *)
Lemma drag_clamp_fails_for_oversized_window :
  exists s' wd',
    dragging sampleSqueezedDrag = true /\
    currentDraggedWindow sampleSqueezedDrag = Some "about"%string /\
    onMouseMove sampleStylesheet 60 120 sampleSqueezedDrag = Done s' /\
    windows s' !! "about"%string = Some wd' /\
    clientWidth s' = 20%Q /\
    offsetWidth sampleStylesheet s' (element wd') = 500%Q /\
    rLeft (style (element wd')) = 0%Q /\
    ~ (rLeft (style (element wd'))
       <= clientWidth s' - offsetWidth sampleStylesheet s' (element wd'))%Q.
Proof.
  eexists _, _.
  split; [reflexivity|]. split; [reflexivity|].
  split; [vm_compute; reflexivity|].
  split; [vm_compute; reflexivity|].
  split; [reflexivity|].
  split; [vm_compute; reflexivity|].
  split; [vm_compute; reflexivity|].
  vm_compute. intros H. apply H. reflexivity.
Qed.

(** The same in a viewport 300 pixels wide, for a window that kept its
    width of 500 while it was hidden. *)
Example drag_clamp_fails_in_narrow_viewport :
  exists s' wd',
    onMouseMove sampleStylesheet 60 120 sampleNarrowDrag = Done s' /\
    windows s' !! "about"%string = Some wd' /\
    clientWidth s' = 300%Q /\
    offsetWidth sampleStylesheet s' (element wd') = 500%Q /\
    rLeft (style (element wd')) = 0%Q.
Proof.
  eexists _, _.
  split; [vm_compute; reflexivity|].
  split; [vm_compute; reflexivity|].
  split; [reflexivity|].
  split; vm_compute; reflexivity.
Qed.

(** C3, amended. A pointer move of a drag on a registered window, with no
    resize under way, places the window with left at least 0 and top at
    least the menu bar height; left is at most W - windowWidth when the
    window is no wider than the viewport, and top at most H - windowHeight
    when the window fits under the menu bar; a window too wide is placed at
    left 0, one too tall at the menu bar height.  The sizes are the
    measured [offsetWidth] and [offsetHeight] of the window, which the move
    does not change. *)
Theorem drag_move_clamped css s clientX clientY target wd :
  resizing s && truthyName (resizeTarget s) = false ->
  dragging s = true ->
  currentDraggedWindow s = Some target ->
  target <> ""%string ->
  windows s !! target = Some wd ->
  exists s' wd',
    onMouseMove css clientX clientY s = Done s' /\
    windows s' !! target = Some wd' /\
    clientWidth s' = clientWidth s /\ clientHeight s' = clientHeight s /\
    menuBarHeight s' = menuBarHeight s /\
    let W := clientWidth s' in
    let H := clientHeight s' in
    let chromeHeight := menuBarHeight s' in
    let windowWidth := offsetWidth css s' (element wd') in
    let windowHeight := offsetHeight css s' (element wd') in
    let left := rLeft (style (element wd')) in
    let top := rTop (style (element wd')) in
    (0 <= left)%Q /\
    ((windowWidth <= W)%Q -> (left <= W - windowWidth)%Q) /\
    ((W < windowWidth)%Q -> left = 0%Q) /\
    (chromeHeight <= top)%Q /\
    ((chromeHeight + windowHeight <= H)%Q -> (top <= H - windowHeight)%Q) /\
    ((H < chromeHeight + windowHeight)%Q -> top = chromeHeight).
Proof.
  intros Hr Hd Ht Hne Hw.
  unfold onMouseMove. rewrite Hr, Hd, Ht. simpl.
  assert (Hs : negb (String.eqb target "") = true).
  { apply negb_true_iff, String.eqb_neq, Hne. }
  rewrite Hs. rewrite (lookupWindow_own _ _ _ Hw).
  destruct (cl_maximized (classList (element wd))) eqn:Hm.
  - unfold maximizeWindow. rewrite (lookupWindow_own _ _ _ Hw). simpl.
    rewrite lookup_insert_eq. simpl. rewrite lookup_insert_eq.
    match goal with
    | |- context [Done (modifyElement target _ ?s1)] =>
        destruct (drag_place css s1 target (maximizeEntry css s wd)
                    (clientX - pos_x (dragOffset s1))%Q
                    (clientY - pos_y (dragOffset s1))%Q) as (wd' & Hl & Hb);
          [simpl; apply lookup_insert_eq|]
    end.
    eexists _, wd'. split; [reflexivity|]. split; [exact Hl|].
    split; [reflexivity|]. split; [reflexivity|]. split; [reflexivity|].
    apply (Hb _).
  - simpl. rewrite Hw.
    destruct (drag_place css s target wd
                (clientX - pos_x (dragOffset s))%Q
                (clientY - pos_y (dragOffset s))%Q Hw) as (wd' & Hl & Hb).
    eexists _, wd'. split; [reflexivity|]. split; [exact Hl|].
    split; [reflexivity|]. split; [reflexivity|]. split; [reflexivity|].
    apply (Hb _).
Qed.

Lemma drag_move_clamped_witness :
  exists s' wd',
    onMouseMove sampleStylesheet 2000 (-40) sampleDrag = Done s' /\
    windows s' !! "about"%string = Some wd' /\
    clientWidth s' = clientWidth sampleDrag /\
    clientHeight s' = clientHeight sampleDrag /\
    menuBarHeight s' = menuBarHeight sampleDrag /\
    let W := clientWidth s' in
    let H := clientHeight s' in
    let chromeHeight := menuBarHeight s' in
    let windowWidth := offsetWidth sampleStylesheet s' (element wd') in
    let windowHeight := offsetHeight sampleStylesheet s' (element wd') in
    let left := rLeft (style (element wd')) in
    let top := rTop (style (element wd')) in
    (0 <= left)%Q /\
    ((windowWidth <= W)%Q -> (left <= W - windowWidth)%Q) /\
    ((W < windowWidth)%Q -> left = 0%Q) /\
    (chromeHeight <= top)%Q /\
    ((chromeHeight + windowHeight <= H)%Q -> (top <= H - windowHeight)%Q) /\
    ((H < chromeHeight + windowHeight)%Q -> top = chromeHeight).
Proof.
  apply (drag_move_clamped sampleStylesheet sampleDrag 2000 (-40) "about"
           (fronted 202 (set_originalPosition (mkPosition 100 100) sampleAbout))).
  - reflexivity.
  - reflexivity.
  - reflexivity.
  - discriminate.
  - vm_compute. reflexivity.
Defined.

(** ** The resize minimum *)

(** The minimum dimensions, as a function of the available space. *)
Lemma getMinDimensions_cases s :
  let horizontalSpace :=
    Math_max 0 (clientWidth s - viewportPadding s * 2)%Q in
  let verticalSpace :=
    Math_max 0 (clientHeight s - menuBarHeight s - viewportPadding s * 2)%Q in
  ((horizontalSpace <= 240)%Q ->
     size_width (getMinDimensions s) = horizontalSpace) /\
  ((240 < horizontalSpace)%Q ->
     size_width (getMinDimensions s) = Math_min 400 horizontalSpace) /\
  ((verticalSpace <= 220)%Q ->
     size_height (getMinDimensions s) = verticalSpace) /\
  ((220 < verticalSpace)%Q ->
     size_height (getMinDimensions s) = Math_min 300 verticalSpace).
Proof.
  unfold getMinDimensions. simpl. repeat split; intros H.
  - apply Qleb_le in H. by rewrite H.
  - apply Qleb_gt in H. by rewrite H.
  - apply Qleb_le in H. by rewrite H.
  - apply Qleb_gt in H. by rewrite H.
Qed.

Lemma resizeMinimum_bounds s b :
  (size_width (getMinDimensions s) <= rWidth (resizeMinimum s b))%Q /\
  (size_height (getMinDimensions s) <= rHeight (resizeMinimum s b))%Q.
Proof. unfold resizeMinimum. simpl. split; apply Math_max_ge_l. Qed.

(** Inside the work area the viewport clamp changes nothing. *)
Lemma resizeContain_inside s b :
  (0 <= rLeft b)%Q -> (rLeft b + rWidth b <= clientWidth s)%Q ->
  rWidth (resizeContain s b) = rWidth b.
Proof.
  intros H0 H1. unfold resizeContain.
  apply Qltb_ge in H0. rewrite H0.
  destruct (Qltb (rTop b) (menuBarHeight s)); cbn;
    apply Qltb_ge in H1; rewrite H1; reflexivity.
Qed.

Lemma resizeContain_inside_height s b :
  (menuBarHeight s <= rTop b)%Q -> (rTop b + rHeight b <= clientHeight s)%Q ->
  rHeight (resizeContain s b) = rHeight b.
Proof.
  intros H0 H1. unfold resizeContain.
  apply Qltb_ge in H0. rewrite H0.
  destruct (Qltb (rLeft b) 0); cbn;
    apply Qltb_ge in H1; rewrite H1; reflexivity.
Qed.

(** C4, as stated, fails: the left handle of the window at left 100, 500
    wide, is pulled 600 pixels to the right in a viewport 1000 wide.  The
    minimum width is 400; the window ends 300 wide. *)
Lemma resize_by_left_handle_ends_below_minimum :
  exists s' wd',
    resizing sampleResizeLeft = true /\
    resizeTarget sampleResizeLeft = Some "about"%string /\
    resizeDirection sampleResizeLeft = Some dir_left /\
    onMouseMove sampleStylesheet 700 300 sampleResizeLeft = Done s' /\
    windows s' !! "about"%string = Some wd' /\
    getMinDimensions s' = mkSize 400 300 /\
    style (element wd') = mkRect 700 100 300 400 /\
    (rWidth (style (element wd')) < size_width (getMinDimensions s'))%Q.
Proof.
  eexists _, _.
  split; [reflexivity|]. split; [reflexivity|]. split; [reflexivity|].
  split; [vm_compute; reflexivity|].
  split; [vm_compute; reflexivity|].
  split; [vm_compute; reflexivity|].
  split; [vm_compute; reflexivity|].
  vm_compute. reflexivity.
Qed.

(** The minimum dimensions are never negative. *)
Lemma getMinDimensions_nonneg s :
  (0 <= size_width (getMinDimensions s))%Q /\
  (0 <= size_height (getMinDimensions s))%Q.
Proof.
  unfold getMinDimensions. simpl.
  pose proof (Math_max_ge_l 0 (clientWidth s - viewportPadding s * 2)) as Hh.
  pose proof (Math_max_ge_l 0
                (clientHeight s - menuBarHeight s - viewportPadding s * 2)) as Hv.
  split.
  - destruct (Qleb _ 240); [exact Hh|].
    match goal with |- (0 <= Math_min ?a ?b)%Q =>
      destruct (Math_min_cases a b) as [[-> _]|[-> _]]; [lra|exact Hh]
    end.
  - destruct (Qleb _ 220); [exact Hv|].
    match goal with |- (0 <= Math_min ?a ?b)%Q =>
      destruct (Math_min_cases a b) as [[-> _]|[-> _]]; [lra|exact Hv]
    end.
Qed.

Lemma keptLength_nonneg v old : (0 <= v)%Q -> keptLength v old = v.
Proof. intros H. unfold keptLength. apply Qltb_ge in H. by rewrite H. Qed.

(** The four style writes that end [handleResize], lines 311-314. *)
Lemma written_box b e :
  let e' := set_top (rTop b) (set_left (rLeft b)
              (set_height (rHeight b) (set_width (rWidth b) e))) in
  classList e' = classList e /\ zIndex e' = zIndex e /\
  style e' = mkRect (rLeft b) (rTop b)
               (keptLength (rWidth b) (rWidth (style e)))
               (keptLength (rHeight b) (rHeight (style e))).
Proof.
  destruct e as [c [l t w h] z]. unfold set_width, set_height, keptLength.
  simpl. destruct (Qltb (rWidth b) 0), (Qltb (rHeight b) 0); done.
Qed.

(** When the pointer of the same resize goes on to x = 1600, beyond the
    right edge, the viewport clamp computes the width 1000 - 1600; the
    style refuses it and the window keeps its width of 500, at left
    1600. *)
Example resize_negative_width_dropped :
  rWidth (resizeBox sampleResizeLeft dir_left (mkResizeStart 100 300 500 400 100 100)
            1600 300) = (-600)%Q /\
  exists s' wd',
    onMouseMove sampleStylesheet 1600 300 sampleResizeLeft = Done s' /\
    windows s' !! "about"%string = Some wd' /\
    style (element wd') = mkRect 1600 100 500 400.
Proof.
  split; [vm_compute; reflexivity|].
  eexists _, _.
  split; [vm_compute; reflexivity|].
  split; vm_compute; reflexivity.
Qed.

(** C4, amended. On a pointer move of a resize, by any of the eight
    handles, the box is first brought up to the minimum dimensions of the
    viewport, then clamped against the viewport, and written to the style:
    left and top as computed, width and height as computed unless
    negative, in which case the style keeps the width or height it had.
    After the first step width and height are at least the minimum.  The
    written width is at least the minimum width when that box lies between
    the left and right viewport edges, the written height at least the
    minimum height when it lies between the menu bar and the bottom edge;
    where the viewport clamp applies, it is not followed by a second
    clamp to the minimum. *)
Theorem resize_minimum_inside_viewport
    css s clientX clientY target direction start wd :
  resizing s = true ->
  resizeTarget s = Some target ->
  target <> ""%string ->
  windows s !! target = Some wd ->
  resizeStart s = Some start ->
  resizeDirection s = Some direction ->
  exists s' wd',
    onMouseMove css clientX clientY s = Done s' /\
    windows s' !! target = Some wd' /\
    let box := resizeBox s direction start clientX clientY in
    let written := style (element wd') in
    rLeft written = rLeft box /\
    rTop written = rTop box /\
    rWidth written = keptLength (rWidth box) (rWidth (style (element wd))) /\
    rHeight written = keptLength (rHeight box) (rHeight (style (element wd))) /\
    getMinDimensions s' = getMinDimensions s /\
    let minWidth := size_width (getMinDimensions s) in
    let minHeight := size_height (getMinDimensions s) in
    let b := resizeMinimum s (resizeAdjust direction start clientX clientY) in
    (minWidth <= rWidth b)%Q /\
    (minHeight <= rHeight b)%Q /\
    ((0 <= rLeft b)%Q -> (rLeft b + rWidth b <= clientWidth s)%Q ->
       (minWidth <= rWidth written)%Q) /\
    ((menuBarHeight s <= rTop b)%Q -> (rTop b + rHeight b <= clientHeight s)%Q ->
       (minHeight <= rHeight written)%Q).
Proof.
  intros Hr Ht Hne Hw Hst Hdir.
  unfold onMouseMove. rewrite Hr, Ht. simpl.
  assert (Hs : negb (String.eqb target "") = true).
  { apply negb_true_iff, String.eqb_neq, Hne. }
  rewrite Hs. unfold handleResize.
  rewrite Ht, (lookupWindow_own _ _ _ Hw), Hst, Hdir.
  eexists _, _. split; [reflexivity|].
  split.
  { unfold modifyElement, modifyWindow. simpl.
    rewrite lookup_alter_eq, Hw. reflexivity. }
  cbn [element set_element].
  destruct (written_box (resizeBox s direction start clientX clientY) (element wd))
    as (_ & _ & ->).
  cbn [rLeft rTop rWidth rHeight].
  split; [reflexivity|]. split; [reflexivity|].
  split; [reflexivity|]. split; [reflexivity|].
  split; [reflexivity|].
  destruct (resizeMinimum_bounds s (resizeAdjust direction start clientX clientY))
    as [Bw Bh].
  destruct (getMinDimensions_nonneg s) as [Nw Nh].
  split; [exact Bw|]. split; [exact Bh|]. split.
  - intros H0 H1. unfold resizeBox. rewrite resizeContain_inside by assumption.
    rewrite keptLength_nonneg by lra. exact Bw.
  - intros H0 H1. unfold resizeBox.
    rewrite resizeContain_inside_height by assumption.
    rewrite keptLength_nonneg by lra. exact Bh.
Qed.

(** The bottom-right handle of the sample window is pulled 450 pixels to
    the left and 350 up: the window stops at the minimum, 400 by 300. *)
Lemma resize_minimum_inside_viewport_witness :
  exists s' wd',
    onMouseMove sampleStylesheet 150 150 sampleResizeCorner = Done s' /\
    windows s' !! "about"%string = Some wd' /\
    rLeft (style (element wd')) = 100%Q /\
    rTop (style (element wd')) = 100%Q /\
    rWidth (style (element wd')) = 400%Q /\
    rHeight (style (element wd')) = 300%Q /\
    (size_width (getMinDimensions sampleResizeCorner)
       <= rWidth (style (element wd')))%Q /\
    (size_height (getMinDimensions sampleResizeCorner)
       <= rHeight (style (element wd')))%Q.
Proof.
  destruct (resize_minimum_inside_viewport sampleStylesheet sampleResizeCorner
              150 150 "about" dir_bottom_right
              (mkResizeStart 600 500 500 400 100 100)
              (fronted 202 sampleAbout))
    as (s' & wd' & Hm & Hl & Hx & Hy & Hwd & Hht & _ & _ & _ & Hw & Hh).
  - reflexivity.
  - reflexivity.
  - discriminate.
  - vm_compute. reflexivity.
  - reflexivity.
  - reflexivity.
  - exists s', wd'. split; [exact Hm|]. split; [exact Hl|].
    split; [rewrite Hx; vm_compute; reflexivity|].
    split; [rewrite Hy; vm_compute; reflexivity|].
    split; [rewrite Hwd; vm_compute; reflexivity|].
    split; [rewrite Hht; vm_compute; reflexivity|].
    split.
    + apply Hw; vm_compute; discriminate.
    + apply Hh; vm_compute; discriminate.
Defined.

(** *** What [bringToFront] does to a registered window *)

Lemma bringToFront_own name s wd :
  windows s !! name = Some wd ->
  exists s',
    bringToFront name s = Done s' /\
    windows s' !! name = Some (fronted (addOne (maxZIndex s)) wd) /\
    (forall m, m <> name -> windows s' !! m = unfocused <$> windows s !! m) /\
    maxZIndex s' = addOne (maxZIndex s) /\
    activeWindow s' = Some name /\
    zHistory s' = addOne (maxZIndex s) :: zHistory s /\
    clientWidth s' = clientWidth s /\ clientHeight s' = clientHeight s /\
    menuBarHeight s' = menuBarHeight s /\ viewportPadding s' = viewportPadding s /\
    dockIcons s' = dockIcons s.
Proof.
  intros H. unfold bringToFront. rewrite (lookupWindow_own _ _ _ H).
  eexists. split; [reflexivity|]. simpl.
  split.
  { rewrite lookup_alter_eq, lookup_fmap, lookup_alter_eq, H. done. }
  split; [|done].
  intros m Hm. rewrite lookup_alter_ne, lookup_fmap, lookup_alter_ne by done. done.
Qed.

(** For a window whose name is plain, [minimizeWindow] sets the state to
    minimized whatever the state was (a closed window included) and turns
    the window's dock indicator on: the dock icon of the window, when the
    page has one, gets its [active] class. *)
Lemma minimizeWindow_plain_name s name wd :
  windows s !! name = Some wd ->
  plainName name = true ->
  exists s' wd',
    minimizeWindow name s = Done s' /\
    windows s' !! name = Some wd' /\
    state wd' = minimized /\
    cl_minimized (classList (element wd')) = true /\
    cl_active (classList (element wd')) = false /\
    dockIcons s' !! name = (fun _ => true) <$> dockIcons s !! name.
Proof.
  intros H Hp. unfold minimizeWindow, updateDockIcon.
  rewrite (lookupWindow_own _ _ _ H), Hp.
  eexists _, _. split; [reflexivity|]. simpl.
  rewrite lookup_insert_eq. repeat split.
  by rewrite lookup_alter_eq.
Qed.

Example minimizeWindow_plain_name_closed :
  state sampleProjects = closed /\
  exists s' wd',
    minimizeWindow "projects" sampleStart = Done s' /\
    windows s' !! "projects"%string = Some wd' /\
    state wd' = minimized /\
    dockIcons sampleStart !! "projects"%string = Some false /\
    dockIcons s' !! "projects"%string = Some true.
Proof.
  split; [reflexivity|]. eexists _, _.
  split; [vm_compute; reflexivity|].
  split; [vm_compute; reflexivity|].
  split; [reflexivity|]. split; vm_compute; reflexivity.
Qed.

(** C9, at a registered window whose name holds a double quote:
    [minimizeWindow] sets the state to minimized and the classes as for
    any window, then [updateDockIcon] puts the name into its selector
    unescaped and [querySelector] throws: the handler ends in a
    [SyntaxError] and the dock icons are left as they were. *)
Theorem minimizeWindow_quoted_name_throws s wd :
  windows s !! quotedName = Some wd ->
  exists s' wd',
    minimizeWindow quotedName s = Threw s' /\
    windows s' !! quotedName = Some wd' /\
    state wd' = minimized /\
    cl_minimized (classList (element wd')) = true /\
    cl_active (classList (element wd')) = false /\
    dockIcons s' = dockIcons s.
Proof.
  intros H. unfold minimizeWindow, updateDockIcon.
  rewrite (lookupWindow_own _ _ _ H).
  replace (plainName quotedName) with false by (vm_compute; reflexivity).
  eexists _, _. split; [reflexivity|]. simpl.
  rewrite lookup_insert_eq. done.
Qed.

(** On the page with such a window, closed after start-up, and with a
    dock icon of that name: the window ends minimized, the icon off. *)
Lemma minimizeWindow_quoted_name_throws_witness :
  (state <$> windows quotedStart !! quotedName) = Some closed /\
  dockIcons quotedStart !! quotedName = Some false /\
  exists s' wd',
    minimizeWindow quotedName quotedStart = Threw s' /\
    windows s' !! quotedName = Some wd' /\
    state wd' = minimized /\
    dockIcons s' !! quotedName = Some false.
Proof.
  split; [vm_compute; reflexivity|].
  assert (Hd : dockIcons quotedStart !! quotedName = Some false)
    by (vm_compute; reflexivity).
  split; [exact Hd|].
  destruct (minimizeWindow_quoted_name_throws quotedStart
              {| element := mkElement (mkClassList false false false)
                              (mkRect 200 150 600 450) None;
                 state := closed;
                 originalPosition := mkPosition 0 0;
                 originalSize := mkSize 0 0 |})
    as (s' & wd' & Hm & Hl & Hs & _ & _ & Hi).
  - vm_compute. reflexivity.
  - exists s', wd'. split; [exact Hm|]. split; [exact Hl|].
    split; [exact Hs|]. rewrite Hi. exact Hd.
Defined.

(** C10. [closeWindow] and [minimizeWindow] leave [this.activeWindow] as it
    is, so after the active window is closed or minimized the field still
    names it (also when the handler ends in the exception of
    [updateDockIcon], which comes after the writes); and an event changes
    the field only by bringing a window to the front, to the name of that
    window. *)
Theorem activeWindow_only_written_by_bringToFront css s :
  (forall name, activeWindow (final (closeWindow name s)) = activeWindow s) /\
  (forall name, activeWindow (final (minimizeWindow name s)) = activeWindow s) /\
  (forall name wd,
     windows s !! name = Some wd -> activeWindow s = Some name ->
     (exists s' wd', final (closeWindow name s) = s' /\
        (plainName name = true -> closeWindow name s = Done s') /\
        windows s' !! name = Some wd' /\ state wd' = closed /\
        activeWindow s' = Some name) /\
     (exists s' wd', final (minimizeWindow name s) = s' /\
        (plainName name = true -> minimizeWindow name s = Done s') /\
        windows s' !! name = Some wd' /\ state wd' = minimized /\
        activeWindow s' = Some name)) /\
  (forall e,
     activeWindow (final (step css e s)) = activeWindow s \/
     exists n, frontTarget e = Some n /\
               activeWindow (final (step css e s)) = Some n).
Proof.
  split; [intros; apply closeWindow_activeWindow|].
  split; [intros; apply minimizeWindow_activeWindow|].
  split.
  - intros name wd H Ha. split.
    + unfold closeWindow. rewrite (lookupWindow_own _ _ _ H).
      eexists _, _. split; [reflexivity|].
      unfold updateDockIcon. destruct (plainName name); simpl;
        rewrite lookup_insert_eq; done.
    + unfold minimizeWindow. rewrite (lookupWindow_own _ _ _ H).
      eexists _, _. split; [reflexivity|].
      unfold updateDockIcon. destruct (plainName name); simpl;
        rewrite lookup_insert_eq; done.
  - intros e. destruct e as [n|n|n|n|n|n|n x y|n d x y|x y| |w h]; simpl.
    + destruct (openWindow_activeWindow css n s); eauto.
    + left. apply closeWindow_activeWindow.
    + left. apply minimizeWindow_activeWindow.
    + left. apply maximizeWindow_activeWindow.
    + destruct (toggleWindow_activeWindow css n s); eauto.
    + destruct (bringToFront_activeWindow n s); eauto.
    + destruct (onTitlebarMouseDown_activeWindow css n x y s); eauto.
    + destruct (onHandleMouseDown_activeWindow css n d x y s); eauto.
    + left. apply onMouseMove_activeWindow.
    + left. apply onMouseUp_activeWindow.
    + left. done.
Qed.

(** The active window of the sample page is closed, then minimized: the
    field keeps naming it. *)
Lemma activeWindow_only_written_by_bringToFront_witness :
  activeWindow sampleStart = Some "about"%string /\
  (exists s' wd', final (closeWindow "about" sampleStart) = s' /\
     (plainName "about" = true -> closeWindow "about" sampleStart = Done s') /\
     windows s' !! "about"%string = Some wd' /\ state wd' = closed /\
     activeWindow s' = Some "about"%string) /\
  (exists s' wd', final (minimizeWindow "about" sampleStart) = s' /\
     (plainName "about" = true -> minimizeWindow "about" sampleStart = Done s') /\
     windows s' !! "about"%string = Some wd' /\ state wd' = minimized /\
     activeWindow s' = Some "about"%string).
Proof.
  split; [reflexivity|].
  apply (proj1 (proj2 (proj2
           (activeWindow_only_written_by_bringToFront sampleStylesheet sampleStart)))
           "about"%string sampleAbout).
  - vm_compute. reflexivity.
  - reflexivity.
Defined.

(** The same on the window whose name holds a double quote, once it is
    the active window: closing it throws after the writes, and the field
    keeps naming it. *)
Example closeWindow_quoted_name_keeps_activeWindow :
  let s := final (openWindow sampleStylesheet quotedName quotedStart) in
  activeWindow s = Some quotedName /\
  closeWindow quotedName s = Threw (final (closeWindow quotedName s)) /\
  activeWindow (final (closeWindow quotedName s)) = Some quotedName /\
  (state <$> windows (final (closeWindow quotedName s)) !! quotedName)
    = Some closed.
Proof. vm_compute. repeat split. Qed.

(** C7, at a name the registry does not hold but [Object.prototype] has:
    the guard [if (!windowData) return] lets it pass.  Closing, minimizing
    and maximizing throw; [bringToFront] and [openWindow] increment the
    stacking counter and then throw (the increment changes the counter as
    long as it is below 2^53); only [toggleWindow] does nothing. *)
Theorem inherited_name_not_ignored css s :
  windows s !! "toString"%string = None ->
  closeWindow "toString" s = Threw s /\
  minimizeWindow "toString" s = Threw s /\
  maximizeWindow css "toString" s = Threw s /\
  bringToFront "toString" s = Threw (set_maxZIndex (addOne (maxZIndex s)) s) /\
  openWindow css "toString" s = Threw (set_maxZIndex (addOne (maxZIndex s)) s) /\
  toggleWindow css "toString" s = Done s /\
  (0 <= maxZIndex s < saturation ->
     maxZIndex (final (bringToFront "toString" s)) = maxZIndex s + 1).
Proof.
  intros H.
  unfold closeWindow, minimizeWindow, maximizeWindow, openWindow, toggleWindow,
    bringToFront, lookupWindow.
  rewrite H. simpl. repeat split.
  intros Hz. apply addOne_range; lia.
Qed.

Lemma inherited_name_not_ignored_witness :
  windows sampleStart !! "toString"%string = None /\
  maxZIndex sampleStart = 201 /\
  closeWindow "toString" sampleStart = Threw sampleStart /\
  bringToFront "toString" sampleStart
    = Threw (set_maxZIndex (addOne (maxZIndex sampleStart)) sampleStart) /\
  maxZIndex (final (bringToFront "toString" sampleStart)) = 202.
Proof.
  assert (H : windows sampleStart !! "toString"%string = None)
    by (vm_compute; reflexivity).
  destruct (inherited_name_not_ignored sampleStylesheet sampleStart H)
    as (Hc & _ & _ & Hb & _ & _ & Hz).
  assert (E : maxZIndex sampleStart = 201) by (vm_compute; reflexivity).
  split; [exact H|]. split; [exact E|].
  split; [exact Hc|]. split; [exact Hb|].
  rewrite Hz; rewrite E; [reflexivity|]. unfold saturation. lia.
Defined.

(** C8, as stated, fails: the maximized window of [sampleMaximized] fills
    the viewport, its restore bounds are those taken when it was maximized,
    and pointer-down on its titlebar records nothing. *)
Lemma drag_start_on_maximized_records_nothing :
  exists wd s' wd',
    windows sampleMaximized !! "about"%string = Some wd /\
    cl_maximized (classList (element wd)) = true /\
    getBoundingClientRect sampleStylesheet sampleMaximized (element wd)
      = mkRect 0 0 1000 800 /\
    onTitlebarMouseDown sampleStylesheet "about" 500 10 sampleMaximized = Done s' /\
    windows s' !! "about"%string = Some wd' /\
    originalPosition wd' = mkPosition 100 100 /\
    originalSize wd' = mkSize 500 400 /\
    originalPosition wd' = originalPosition wd /\
    originalSize wd' = originalSize wd /\
    ~ (pos_x (originalPosition wd') == 0)%Q /\
    ~ (size_width (originalSize wd') == 1000)%Q.
Proof.
  eexists _, _, _.
  split; [vm_compute; reflexivity|].
  split; [reflexivity|].
  split; [vm_compute; reflexivity|].
  split; [vm_compute; reflexivity|].
  split; [vm_compute; reflexivity|].
  repeat split; try reflexivity; vm_compute; discriminate.
Qed.

(** C8, amended. Pointer-down on the titlebar of a registered window brings
    it to the front and then records the measured top-left corner as
    [originalPosition] when the window is not maximized; on a maximized
    window [originalPosition] is left as it was; [originalSize] is never
    written. *)
Theorem drag_start_records_position_unless_maximized css s name x y wd :
  windows s !! name = Some wd ->
  exists s1 wd1 s' wd',
    bringToFront name s = Done s1 /\
    windows s1 !! name = Some wd1 /\
    onTitlebarMouseDown css name x y s = Done s' /\
    windows s' !! name = Some wd' /\
    originalSize wd' = originalSize wd /\
    (cl_maximized (classList (element wd)) = true ->
       originalPosition wd' = originalPosition wd) /\
    (cl_maximized (classList (element wd)) = false ->
       originalPosition wd'
         = mkPosition (rLeft (getBoundingClientRect css s1 (element wd1)))
                      (rTop (getBoundingClientRect css s1 (element wd1)))).
Proof.
  intros H.
  destruct (bringToFront_own name s wd H)
    as (s1 & Hb & Hl & _ & _ & _ & _ & Hw & Hh & _).
  exists s1, (fronted (addOne (maxZIndex s)) wd).
  unfold onTitlebarMouseDown. rewrite H, Hb. simpl. rewrite Hl. simpl.
  destruct (cl_maximized (classList (element wd))) eqn:Hm; simpl.
  - eexists _, _. split; [done|]. split; [done|]. split; [reflexivity|].
    simpl. split; [exact Hl|]. done.
  - eexists _, _. split; [done|]. split; [done|]. split; [reflexivity|].
    simpl. rewrite lookup_alter_eq, Hl. simpl.
    split; [reflexivity|]. done.
Qed.

Lemma drag_start_records_position_unless_maximized_witness :
  exists s1 wd1 s' wd',
    bringToFront "about" sampleStart = Done s1 /\
    windows s1 !! "about"%string = Some wd1 /\
    onTitlebarMouseDown sampleStylesheet "about" 110 105 sampleStart = Done s' /\
    windows s' !! "about"%string = Some wd' /\
    originalSize wd' = originalSize sampleAbout /\
    (cl_maximized (classList (element sampleAbout)) = true ->
       originalPosition wd' = originalPosition sampleAbout) /\
    (cl_maximized (classList (element sampleAbout)) = false ->
       originalPosition wd'
         = mkPosition
             (rLeft (getBoundingClientRect sampleStylesheet s1 (element wd1)))
             (rTop (getBoundingClientRect sampleStylesheet s1 (element wd1)))).
Proof.
  apply (drag_start_records_position_unless_maximized
           sampleStylesheet sampleStart "about" 110 105 sampleAbout).
  vm_compute. reflexivity.
Defined.


(** ** Two scenarios, run *)

(** A closed window is opened, minimized, brought back from the dock and
    closed; its state, active class and dock indicator at each stage. *)
Example lifecycle_scenario :
  let view (s : World) :=
    (fun wd => (state wd, cl_active (classList (element wd))))
      <$> windows s !! "projects"%string in
  let dock (s : World) := dockIcons s !! "projects"%string in
  let s1 := final (openWindow sampleStylesheet "projects" sampleStart) in
  let s2 := final (minimizeWindow "projects" s1) in
  let s3 := final (toggleWindow sampleStylesheet "projects" s2) in
  let s4 := final (closeWindow "projects" s3) in
  (view sampleStart, dock sampleStart) = (Some (closed, false), Some false) /\
  (view s1, dock s1) = (Some (open, true), Some true) /\
  (view s2, dock s2) = (Some (minimized, false), Some true) /\
  (view s3, dock s3) = (Some (open, true), Some true) /\
  (view s4, dock s4) = (Some (closed, false), Some false).
Proof. vm_compute. repeat split. Qed.

(** The viewport shrinks from 1200 by 800 to 600 by 400: the open window
    comes to lie within [12, 588] by [42, 388]. *)
Example viewport_scenario :
  style <$> (element <$>
    windows (final (onViewportResize sampleStylesheet 600 400
                      (final (init sampleStylesheet widePage)))) !! "about"%string)
  = Some (mkRect 88 42 500 346).
Proof. vm_compute. reflexivity. Qed.

(** ** Focus and stacking: how handlers change them *)

Section EntriesFrom.

Implicit Types (R : string -> WindowData -> WindowData -> Prop).
Implicit Types (m : gmap string WindowData).

Lemma entriesFrom_refl R m :
  (forall n wd, R n wd wd) -> entriesFrom R m m.
Proof. intros HR n wd' H. eauto. Qed.

Lemma entriesFrom_trans R1 R2 R3 m1 m2 m3 :
  (forall n a b c, R1 n a b -> R2 n b c -> R3 n a c) ->
  entriesFrom R1 m1 m2 -> entriesFrom R2 m2 m3 -> entriesFrom R3 m1 m3.
Proof.
  intros HR H12 H23 n wd3 H3.
  destruct (H23 n wd3 H3) as (wd2 & H2 & HR2).
  destruct (H12 n wd2 H2) as (wd1 & H1 & HR1).
  eauto.
Qed.

Lemma entriesFrom_fmap R m (g : WindowData -> WindowData) :
  (forall n wd, R n wd (g wd)) -> entriesFrom R m (g <$> m).
Proof.
  intros HR n wd' H. rewrite lookup_fmap in H.
  destruct (m !! n) as [wd|] eqn:E; simpl in H; [|done].
  inversion H; subst. eauto.
Qed.

Lemma entriesFrom_alter R m (g : WindowData -> WindowData) k :
  (forall n wd, R n wd wd) -> (forall wd, R k wd (g wd)) ->
  entriesFrom R m (alter g k m).
Proof.
  intros Hrefl HR n wd' H.
  destruct (decide (n = k)) as [->|Hne].
  - rewrite lookup_alter_eq in H.
    destruct (m !! k) as [wd|] eqn:E; simpl in H; [|done].
    inversion H; subst. eauto.
  - rewrite lookup_alter_ne in H by done. eauto.
Qed.

Lemma entriesFrom_insert R m k wd wd1 :
  (forall n wd, R n wd wd) -> m !! k = Some wd -> R k wd wd1 ->
  entriesFrom R m (<[k := wd1]> m).
Proof.
  intros Hrefl Hk HR n wd' H.
  destruct (decide (n = k)) as [->|Hne].
  - rewrite lookup_insert_eq in H. inversion H; subst. eauto.
  - rewrite lookup_insert_ne in H by done. eauto.
Qed.

End EntriesFrom.

Lemma sameFocus_refl n wd : sameFocus n wd wd.
Proof. done. Qed.

Lemma quietEntry_refl n wd : quietEntry n wd wd.
Proof. done. Qed.

Lemma sameFocus_quietEntry n wd wd' : sameFocus n wd wd' -> quietEntry n wd wd'.
Proof.
  unfold sameFocus, quietEntry, isActive. intros (Hz & Ha & Hs).
  rewrite Ha, Hs. done.
Qed.

Lemma still_refl s : still s s.
Proof. repeat split. apply entriesFrom_refl, sameFocus_refl. Qed.

Lemma still_trans s1 s2 s3 : still s1 s2 -> still s2 s3 -> still s1 s3.
Proof.
  intros (Hz1 & Hh1 & He1) (Hz2 & Hh2 & He2).
  split; [congruence|]. split; [congruence|].
  eapply entriesFrom_trans; [|exact He1|exact He2].
  unfold sameFocus. intros n a b c (A1 & A2 & A3) (B1 & B2 & B3).
  repeat split; congruence.
Qed.

Lemma still_quiet s s' : still s s' -> quiet s s'.
Proof.
  intros (Hz & Hh & He). split; [by left|]. split; [done|].
  eapply entriesFrom_trans; [|exact He|apply entriesFrom_refl, quietEntry_refl].
  intros n a b c H1 H2.
  apply sameFocus_quietEntry in H1.
  unfold quietEntry in *. destruct H1 as (A1 & A2 & A3), H2 as (B1 & B2 & B3).
  split; [congruence|]. split; [tauto|]. intros Hc Hm. auto.
Qed.

Lemma quiet_still s1 s2 s3 : quiet s1 s2 -> still s2 s3 -> quiet s1 s3.
Proof.
  intros (Hz1 & Hh1 & He1) (Hz2 & Hh2 & He2).
  split; [rewrite Hz2; exact Hz1|]. split; [congruence|].
  eapply entriesFrom_trans; [|exact He1|exact He2].
  unfold sameFocus, quietEntry, isActive.
  intros n a b c (A1 & A2 & A3) (B1 & B2 & B3).
  rewrite B1, B2, B3. done.
Qed.

Lemma raised_still k t s1 s2 s3 : raised k t s1 s2 -> still s2 s3 -> raised k t s1 s3.
Proof.
  intros (Hz1 & Hh1 & He1) (Hz2 & Hh2 & He2).
  split; [congruence|]. split; [congruence|].
  eapply entriesFrom_trans; [|exact He1|exact He2].
  unfold sameFocus, raisedEntry, isActive.
  intros n a b c A (B1 & B2 & B3).
  rewrite B1, B2, B3. exact A.
Qed.

Lemma still_modifyElement n f s :
  keepsFocus f -> still s (modifyElement n f s).
Proof.
  intros Hf. repeat split. simpl.
  apply entriesFrom_alter; [apply sameFocus_refl|].
  intros wd. destruct (Hf (element wd)) as [Hz Ha]. done.
Qed.

Lemma keepsFocus_ensure css s : keepsFocus (ensureWindowInViewport css s).
Proof.
  intros e.
  destruct (cl_maximized (classList e) || displayNone css (classList e)) eqn:H.
  - by rewrite (ensureWindowInViewport_skipped css s e H).
  - by rewrite (ensureWindowInViewport_free css s e H).
Qed.

Lemma keepsFocus_place l t : keepsFocus (fun e => set_top t (set_left l e)).
Proof. done. Qed.

Lemma keepsFocus_box b :
  keepsFocus (fun e => set_top (rTop b) (set_left (rLeft b)
                         (set_height (rHeight b) (set_width (rWidth b) e)))).
Proof. intros e. destruct (written_box b e) as (-> & -> & _). done. Qed.

Lemma keepsFocus_size w h :
  keepsFocus (fun e => set_height h (set_width w e)).
Proof.
  intros e.
  destruct (set_height_style h (set_width w e)) as (-> & -> & _).
  destruct (set_width_style w e) as (-> & -> & _). done.
Qed.

Lemma sameFocus_maximizeEntry css s n wd : sameFocus n wd (maximizeEntry css s wd).
Proof.
  unfold maximizeEntry.
  destruct (cl_maximized (classList (element wd))).
  - unfold sameFocus, stackOrder. simpl.
    match goal with |- context [ensureWindowInViewport css s ?x] =>
      destruct (keepsFocus_ensure css s x) as [-> ->]
    end.
    destruct (truthy _ && truthy _); destruct (truthy _ && truthy _);
      rewrite ?(proj1 (keepsFocus_size _ _ _)), ?(proj2 (keepsFocus_size _ _ _));
      done.
  - done.
Qed.

Lemma still_ensureAll css s : still s (ensureAllWindowsInViewport css s).
Proof.
  repeat split. simpl. apply entriesFrom_fmap.
  intros n wd. destruct (keepsFocus_ensure css s (element wd)) as [Hz Ha]. done.
Qed.

(** *** The effect of each handler *)

Lemma bringToFront_raised n s wd :
  windows s !! n = Some wd ->
  exists s', bringToFront n s = Done s' /\ raised true n s s' /\
             windows s' !! n = Some (fronted (addOne (maxZIndex s)) wd).
Proof.
  intros H.
  destruct (bringToFront_own n s wd H) as (s' & Hb & Hn & Hm & Hz & _ & Hh & _).
  exists s'. split; [exact Hb|]. split; [|exact Hn].
  split; [exact Hz|]. split; [exact Hh|].
  intros m wd' Hl. unfold raisedEntry.
  destruct (decide (m = n)) as [->|Hne].
  - rewrite Hn in Hl. inversion Hl; subst. exists wd. done.
  - rewrite (Hm m Hne) in Hl.
    destruct (windows s !! m) as [wd0|] eqn:E; simpl in Hl; [|done].
    inversion Hl; subst. exists wd0. done.
Qed.

Lemma bringToFront_unregistered n s :
  windows s !! n = None -> quiet s (final (bringToFront n s)).
Proof.
  intros H. unfold bringToFront, lookupWindow. rewrite H.
  case_bool_decide; simpl.
  - split; [by right|]. split; [done|].
    apply entriesFrom_refl, quietEntry_refl.
  - apply still_quiet, still_refl.
Qed.

Lemma still_updateDockIcon n b s : still s (final (updateDockIcon n b s)).
Proof.
  destruct (updateDockIcon_frame n b s) as (Hw & _ & Hz & Hh & _).
  split; [exact Hz|]. split; [exact Hh|].
  rewrite Hw. apply entriesFrom_refl, sameFocus_refl.
Qed.

Lemma raised_relax n s s' :
  (forall wd, windows s !! n = Some wd -> state wd <> minimized) ->
  raised true n s s' -> raised false n s s'.
Proof.
  intros Hs (Hz & Hh & He). split; [done|]. split; [done|].
  intros m wd' Hl. destruct (He m wd' Hl) as (wd & Hw & HR).
  exists wd. split; [done|]. unfold raisedEntry in *.
  destruct (decide (m = n)) as [->|]; [|done].
  destruct HR as (A & B & C). repeat split; try done.
  rewrite C. eauto.
Qed.

Lemma openWindow_registered css n s wd :
  windows s !! n = Some wd ->
  raised false n s (final (openWindow css n s)).
Proof.
  intros H. unfold openWindow. rewrite (lookupWindow_own _ _ _ H).
  match goal with
  | |- context [bringToFront n (set_windows (<[n := ?wd2]> _) s)] =>
      set (entry := wd2);
      destruct (bringToFront_own n (set_windows (<[n := entry]> (windows s)) s) entry)
        as (s1 & Hb & Hn & Hm & Hz & _ & Hh & _);
        [simpl; apply lookup_insert_eq|]
  end.
  rewrite Hb. simpl.
  apply raised_still with (s2 := s1).
  - split; [exact Hz|]. split; [exact Hh|].
    intros m wd' Hl. unfold raisedEntry. simpl in *.
    destruct (decide (m = n)) as [->|Hne].
    + rewrite Hn in Hl. inversion Hl; subst. exists wd. split; [done|].
      split; [done|]. split; [done|].
      subst entry. unfold fronted. simpl.
      destruct (state wd) eqn:E; simpl; rewrite ?E; simpl; rewrite ?E; done.
    + rewrite (Hm m Hne), lookup_insert_ne in Hl by done.
      destruct (windows s !! m) as [wd0|] eqn:E; simpl in Hl; [|done].
      inversion Hl; subst. exists wd0. done.
  - eapply still_trans; [apply still_modifyElement, keepsFocus_ensure|].
    apply still_updateDockIcon.
Qed.

Lemma openWindow_unregistered css n s :
  windows s !! n = None -> quiet s (final (openWindow css n s)).
Proof.
  intros H. unfold openWindow, lookupWindow. rewrite H.
  case_bool_decide; simpl.
  - unfold bringToFront, lookupWindow. rewrite H.
    rewrite bool_decide_eq_true_2 by done. simpl.
    split; [by right|]. split; [done|].
    apply entriesFrom_refl, quietEntry_refl.
  - apply still_quiet, still_refl.
Qed.

Lemma closeWindow_quiet n s : quiet s (final (closeWindow n s)).
Proof.
  unfold closeWindow. case_lookup s n; simpl; try apply still_quiet, still_refl.
  eapply quiet_still; [|apply still_updateDockIcon].
  split; [by left|]. split; [done|]. simpl.
  apply entriesFrom_insert with (wd := w); [apply quietEntry_refl|done|].
  unfold quietEntry, isActive. simpl. done.
Qed.

Lemma minimizeWindow_quiet n s : quiet s (final (minimizeWindow n s)).
Proof.
  unfold minimizeWindow. case_lookup s n; simpl; try apply still_quiet, still_refl.
  eapply quiet_still; [|apply still_updateDockIcon].
  split; [by left|]. split; [done|]. simpl.
  apply entriesFrom_insert with (wd := w); [apply quietEntry_refl|done|].
  unfold quietEntry, isActive. simpl. done.
Qed.

Lemma maximizeWindow_still css n s : still s (final (maximizeWindow css n s)).
Proof.
  unfold maximizeWindow. case_lookup s n; simpl; try apply still_refl.
  repeat split. simpl.
  apply entriesFrom_insert with (wd := w);
    [apply sameFocus_refl|done|apply sameFocus_maximizeEntry].
Qed.

Lemma toggleWindow_effect css n s :
  quiet s (final (toggleWindow css n s)) \/
  raised false n s (final (toggleWindow css n s)).
Proof.
  unfold toggleWindow. case_lookup s n; simpl;
    try (left; apply still_quiet, still_refl).
  destruct (state w) eqn:Hst.
  - right. by apply (openWindow_registered css n s w).
  - destruct (bringToFront_raised n s w Hlk) as (s' & -> & Hr & _). right.
    apply raised_relax; [|exact Hr]. intros wd Hw. congruence.
  - right. by apply (openWindow_registered css n s w).
  - destruct (bringToFront_raised n s w Hlk) as (s' & -> & Hr & _). right.
    apply raised_relax; [|exact Hr]. intros wd Hw. congruence.
Qed.

Lemma onTitlebarMouseDown_effect css n x y s :
  quiet s (final (onTitlebarMouseDown css n x y s)) \/
  raised true n s (final (onTitlebarMouseDown css n x y s)).
Proof.
  unfold onTitlebarMouseDown.
  destruct (windows s !! n) as [wd|] eqn:H; [|left; apply still_quiet, still_refl].
  destruct (bringToFront_raised n s wd H) as (s1 & -> & Hr & Hn). right. simpl.
  rewrite Hn. simpl.
  apply raised_still with (s2 := s1); [exact Hr|].
  destruct (negb _); simpl.
  - repeat split. simpl.
    apply entriesFrom_alter; [apply sameFocus_refl|done].
  - repeat split. apply entriesFrom_refl, sameFocus_refl.
Qed.

Lemma onHandleMouseDown_effect css n d x y s :
  quiet s (final (onHandleMouseDown css n d x y s)) \/
  raised true n s (final (onHandleMouseDown css n d x y s)).
Proof.
  unfold onHandleMouseDown.
  destruct (windows s !! n) as [wd|] eqn:H; [|left; apply still_quiet, still_refl].
  destruct (cl_maximized _); [left; apply still_quiet, still_refl|].
  destruct (bringToFront_raised n s wd H) as (s1 & -> & Hr & Hn). right. simpl.
  rewrite Hn. simpl.
  apply raised_still with (s2 := s1); [exact Hr|].
  repeat split. apply entriesFrom_refl, sameFocus_refl.
Qed.

Lemma handleResize_still x y s : still s (final (handleResize x y s)).
Proof.
  unfold handleResize. destruct (resizeTarget s) as [t|]; [|apply still_refl].
  case_lookup s t; simpl; try apply still_refl.
  destruct (resizeStart s), (resizeDirection s); simpl; try apply still_refl.
  apply still_modifyElement, keepsFocus_box.
Qed.

Lemma onMouseMove_still css x y s : still s (final (onMouseMove css x y s)).
Proof.
  unfold onMouseMove.
  destruct (resizing s && truthyName (resizeTarget s)); [apply handleResize_still|].
  destruct (dragging s && truthyName (currentDraggedWindow s)); [|apply still_refl].
  destruct (currentDraggedWindow s) as [t|]; [|apply still_refl].
  case_lookup s t; simpl; try apply still_refl.
  destruct (cl_maximized (classList (element w))); simpl.
  - unfold maximizeWindow. rewrite (lookupWindow_own _ _ _ Hlk). simpl.
    rewrite lookup_insert_eq. simpl. rewrite lookup_insert_eq. simpl.
    match goal with |- still s (modifyElement t ?f ?s1) =>
      apply still_trans with (s2 := s1);
        [|apply still_modifyElement, keepsFocus_place]
    end.
    repeat split. simpl.
    apply entriesFrom_insert with (wd := w);
      [apply sameFocus_refl|done|apply sameFocus_maximizeEntry].
  - rewrite Hlk. simpl. apply still_modifyElement, keepsFocus_place.
Qed.

Lemma onMouseUp_still s : still s (final (onMouseUp s)).
Proof.
  unfold onMouseUp. destruct (dragging s); simpl; destruct (resizing s); simpl;
    repeat split; apply entriesFrom_refl, sameFocus_refl.
Qed.

Lemma onViewportResize_still css w h s : still s (final (onViewportResize css w h s)).
Proof.
  unfold onViewportResize. simpl.
  apply still_trans with (s2 := set_viewport w h s); [|apply still_ensureAll].
  repeat split. apply entriesFrom_refl, sameFocus_refl.
Qed.

(** Every event either leaves focus and stacking quiet or raises the
    window it targets. *)
Lemma step_effect css e s :
  quiet s (final (step css e s)) \/
  exists n, frontTarget e = Some n /\
            raised (keepsState e) n s (final (step css e s)).
Proof.
  destruct e as [n|n|n|n|n|n|n x y|n d x y|x y| |w h]; simpl.
  - destruct (windows s !! n) as [wd|] eqn:H.
    + right. exists n. split; [done|]. by apply (openWindow_registered css n s wd).
    + left. by apply openWindow_unregistered.
  - left. apply closeWindow_quiet.
  - left. apply minimizeWindow_quiet.
  - left. apply still_quiet, maximizeWindow_still.
  - destruct (toggleWindow_effect css n s); eauto.
  - destruct (windows s !! n) as [wd|] eqn:H.
    + destruct (bringToFront_raised n s wd H) as (s' & -> & Hr & _). eauto.
    + left. by apply bringToFront_unregistered.
  - destruct (onTitlebarMouseDown_effect css n x y s); eauto.
  - destruct (onHandleMouseDown_effect css n d x y s); eauto.
  - left. apply still_quiet, onMouseMove_still.
  - left. apply still_quiet, onMouseUp_still.
  - left. apply still_quiet, onViewportResize_still.
Qed.
(** *** The invariants along a run *)

Lemma quiet_counter s s' :
  0 <= maxZIndex s <= saturation -> quiet s s' ->
  maxZIndex s <= maxZIndex s' <= saturation.
Proof.
  intros Hr ([-> | ->] & _); [lia|].
  pose proof (addOne_range _ Hr). lia.
Qed.

Lemma counterInvariant_quiet s s' :
  counterInvariant s -> quiet s s' -> counterInvariant s'.
Proof.
  intros (Hb & Hrec & H200 & Hnd & Hh) Hq.
  assert (Hz : maxZIndex s <= maxZIndex s' <= saturation)
    by (apply (quiet_counter s s'); [lia|done]).
  destruct Hq as (_ & Hhist & He).
  split; [|split; [|split; [|split]]].
  - intros n wd' z Hl Hso. destruct (He n wd' Hl) as (wd & Hw & (Hq & _)).
    rewrite Hq in Hso. specialize (Hb n wd z Hw Hso). lia.
  - intros n wd' z Hl Hso. destruct (He n wd' Hl) as (wd & Hw & (Hq & _)).
    rewrite Hq in Hso. rewrite Hhist. eauto.
  - lia.
  - intros Hlt. rewrite Hhist. apply Hnd. lia.
  - intros z Hin. rewrite Hhist in Hin. apply Hh in Hin. lia.
Qed.

Lemma counterInvariant_raised k t s s' :
  counterInvariant s -> raised k t s s' -> counterInvariant s'.
Proof.
  intros (Hb & Hrec & H200 & Hnd & Hh) (Hz & Hhist & He).
  destruct (addOne_range (maxZIndex s)) as (Ha1 & Ha2 & Ha3); [lia|].
  assert (Hentry : forall n wd' z, windows s' !! n = Some wd' ->
            stackOrder wd' = Some z ->
            z = addOne (maxZIndex s) \/
            exists wd, windows s !! n = Some wd /\ stackOrder wd = Some z).
  { intros n wd' z Hl Hso. destruct (He n wd' Hl) as (wd & Hw & HR).
    unfold raisedEntry in HR. destruct (decide (n = t)).
    - destruct HR as (A & _). left. congruence.
    - destruct HR as (A & _). right. exists wd. split; [done|congruence]. }
  split; [|split; [|split; [|split]]].
  - intros n wd' z Hl Hso.
    destruct (Hentry n wd' z Hl Hso) as [->|(wd & Hw & Hs)]; [lia|].
    specialize (Hb n wd z Hw Hs). lia.
  - intros n wd' z Hl Hso. rewrite Hhist.
    destruct (Hentry n wd' z Hl Hso) as [->|(wd & Hw & Hs)].
    + apply list_elem_of_here.
    + apply list_elem_of_further. eauto.
  - lia.
  - intros Hlt. rewrite Hhist, Ha2 by lia. apply NoDup_cons. split.
    + intros Hin. apply Hh in Hin. lia.
    + apply Hnd. lia.
  - intros z Hin. rewrite Hhist in Hin.
    assert (200 < addOne (maxZIndex s)).
    { destruct (Z.eq_dec (maxZIndex s) saturation) as [E|E].
      - rewrite (Ha3 E), E. unfold saturation. lia.
      - rewrite Ha2 by lia. lia. }
    apply elem_of_cons in Hin as [->|Hin]; [lia|].
    apply Hh in Hin. lia.
Qed.

Lemma focusInvariant_quiet s s' :
  focusInvariant s -> 0 <= maxZIndex s <= saturation -> quiet s s' ->
  focusInvariant s'.
Proof.
  intros (H1 & Htop & Hmin) Hr Hq.
  pose proof (quiet_counter s s' Hr Hq) as Hz.
  destruct Hq as (_ & _ & He). repeat split.
  - intros n m wd wd' Hn Hm Ha Ha'.
    destruct (He n wd Hn) as (w0 & Hw0 & (_ & A & _)).
    destruct (He m wd' Hm) as (w1 & Hw1 & (_ & B & _)).
    eapply H1; eauto.
  - intros n wd Hn Ha.
    destruct (He n wd Hn) as (w0 & Hw0 & (Z0 & A & _)).
    destruct (Htop n w0 Hw0 (A Ha)) as (z & Hz0 & Hothers).
    exists z. split; [congruence|].
    intros m wd' Hne Hm.
    destruct (He m wd' Hm) as (w1 & Hw1 & (Z1 & _)).
    rewrite Z1. destruct (Hothers m w1 Hne Hw1) as [NA ST].
    split; [exact NA|]. intros Hlt. apply ST. lia.
  - intros n wd Hn Hst Ha.
    destruct (He n wd Hn) as (w0 & Hw0 & (_ & A & B)).
    exact (Hmin n w0 Hw0 (B Ha Hst) (A Ha)).
Qed.

Lemma focusInvariant_raised k t s s' :
  counterInvariant s -> raised k t s s' ->
  (k = true -> forall wd, windows s !! t = Some wd -> state wd <> minimized) ->
  focusInvariant s'.
Proof.
  intros (Hb & _ & H200 & _) (Hz & _ & He) Hguard.
  destruct (addOne_range (maxZIndex s)) as (Ha1 & Ha2 & Ha3); [lia|].
  assert (Hact : forall n wd', windows s' !! n = Some wd' -> isActive wd' -> n = t).
  { intros n wd' Hl Ha. destruct (He n wd' Hl) as (wd & Hw & HR).
    unfold raisedEntry in HR. destruct (decide (n = t)); [done|].
    destruct HR as (_ & A & _). unfold isActive in Ha. congruence. }
  repeat split.
  - intros n m wd wd' Hn Hm Ha Ha'.
    rewrite (Hact n wd Hn Ha), (Hact m wd' Hm Ha'). done.
  - intros n wd Hn Ha. pose proof (Hact n wd Hn Ha) as ->.
    destruct (He t wd Hn) as (w0 & Hw0 & HR).
    unfold raisedEntry in HR. rewrite decide_True in HR by done.
    destruct HR as (A & _). exists (addOne (maxZIndex s)). split; [done|].
    intros m wd' Hne Hm.
    destruct (He m wd' Hm) as (w1 & Hw1 & HR).
    unfold raisedEntry in HR. rewrite decide_False in HR by done.
    destruct HR as (B & _). rewrite B.
    destruct (stackOrder w1) as [z1|] eqn:E; simpl; [|done].
    specialize (Hb m w1 z1 Hw1 E). split; [lia|].
    intros Hlt. rewrite Hz in Hlt. rewrite Ha2 by lia. lia.
  - intros n wd Hn Hst Ha. pose proof (Hact n wd Hn Ha) as ->.
    destruct (He t wd Hn) as (w0 & Hw0 & HR).
    unfold raisedEntry in HR. rewrite decide_True in HR by done.
    destruct HR as (_ & _ & C). destruct k.
    + apply (Hguard eq_refl w0 Hw0). congruence.
    + done.
Qed.

Lemma counterInvariant_range s :
  counterInvariant s -> 0 <= maxZIndex s <= saturation.
Proof. intros (_ & _ & H & _). lia. Qed.

(** One step keeps both invariants, when it spares minimized windows. *)
Lemma invariants_step css e s :
  focusInvariant s -> counterInvariant s -> sparesMinimized e s ->
  focusInvariant (final (step css e s)) /\ counterInvariant (final (step css e s)).
Proof.
  intros Hf Hc Hg.
  destruct (step_effect css e s) as [Hq|(n & Ht & Hr)].
  - split; [eapply focusInvariant_quiet|eapply counterInvariant_quiet]; eauto.
    by apply counterInvariant_range.
  - split; [|eapply counterInvariant_raised; eauto].
    eapply focusInvariant_raised; [exact Hc|exact Hr|].
    intros Hk wd Hw. eapply Hg; eauto.
Qed.

Lemma counterInvariant_step css e s :
  counterInvariant s -> counterInvariant (final (step css e s)).
Proof.
  intros Hc.
  destruct (step_effect css e s) as [Hq|(n & Ht & Hr)].
  - eapply counterInvariant_quiet; eauto.
  - eapply counterInvariant_raised; eauto.
Qed.

Lemma maxZIndex_step css e s :
  0 <= maxZIndex s <= saturation ->
  maxZIndex s <= maxZIndex (final (step css e s)) <= saturation.
Proof.
  intros Hr.
  destruct (step_effect css e s) as [Hq|(n & Ht & (Hz & _))].
  - by apply quiet_counter.
  - rewrite Hz. pose proof (addOne_range _ Hr). lia.
Qed.

(** *** Start-up *)

Lemma fresh_registered (ws : list (string * Rect)) s :
  fresh s -> fresh (foldl registerWindow s ws).
Proof.
  revert s. induction ws as [|w ws IH]; intros s Hs; [done|].
  simpl. apply IH. destruct Hs as (He & Hz & Hh).
  split; [|done]. intros n wd Hl. simpl in Hl.
  destruct (decide (n = w.1)) as [->|Hne].
  - rewrite lookup_insert_eq in Hl. inversion Hl; subst. done.
  - rewrite lookup_insert_ne in Hl by done. eauto.
Qed.

Lemma fresh_invariants s : fresh s -> focusInvariant s /\ counterInvariant s.
Proof.
  intros (He & Hz & Hh). split; [repeat split|repeat split].
  - intros n m wd wd' Hn _ Ha. destruct (He n wd Hn) as (A & _).
    unfold isActive in Ha. congruence.
  - intros n wd Hn Ha. destruct (He n wd Hn) as (A & _).
    unfold isActive in Ha. congruence.
  - intros n wd Hn Hs. destruct (He n wd Hn) as (_ & _ & A). congruence.
  - intros n wd z Hn Hs. destruct (He n wd Hn) as (_ & A & _). congruence.
  - intros n wd z Hn Hs. destruct (He n wd Hn) as (_ & A & _). congruence.
  - lia.
  - rewrite Hz. unfold saturation. lia.
  - rewrite Hh. constructor.
  - rewrite Hh in H. by apply elem_of_nil in H.
  - rewrite Hh in H. by apply elem_of_nil in H.
Qed.

Lemma init_invariants css p :
  focusInvariant (final (init css p)) /\ counterInvariant (final (init css p)).
Proof.
  unfold init.
  set (s1 := match page_menuBar p with
             | Some h => set_menuBarHeight h (constructor p)
             | None => constructor p
             end).
  assert (Hfresh : fresh s1).
  { subst s1. destruct (page_menuBar p); (split; [|done]);
      intros n wd Hl; simpl in Hl; by rewrite lookup_empty in Hl. }
  apply (fresh_registered (page_windows p)) in Hfresh.
  apply fresh_invariants in Hfresh as [Hf Hc].
  pose proof (still_quiet _ _ (still_ensureAll css (foldl registerWindow s1 (page_windows p))))
    as Hq.
  pose proof (focusInvariant_quiet _ _ Hf (counterInvariant_range _ Hc) Hq) as Hf'.
  pose proof (counterInvariant_quiet _ _ Hc Hq) as Hc'.
  apply (invariants_step css (Open "about")); try done.
Qed.


Lemma reachable_counterInvariant css s :
  reachable css anyEvent s -> counterInvariant s.
Proof.
  induction 1 as [p|e s Hr Hc Hg].
  - apply init_invariants.
  - by apply counterInvariant_step.
Qed.

(** ** Focus and stacking: the claims *)




(** *** A run that takes the counter to its end *)

Lemma activations_succ n s :
  activations (N.succ n) s = final (bringToFront "about" (activations n s)).
Proof. unfold activations. apply N.iter_succ. Qed.

Lemma fronted_fronted z z' wd : fronted z (fronted z' wd) = fronted z wd.
Proof. reflexivity. Qed.

(** The sample page after [n] further activations of its first window, as
    long as the counter has room: the counter and the window's stacking
    order stand at 201 + n. *)
Lemma activations_state n :
  Z.of_N n <= saturation - 201 ->
  reachable sampleStylesheet anyEvent (activations n sampleStart) /\
  maxZIndex (activations n sampleStart) = 201 + Z.of_N n /\
  windows (activations n sampleStart) !! "about"%string
    = Some (fronted (201 + Z.of_N n) sampleAbout) /\
  windows (activations n sampleStart) !! "projects"%string
    = Some sampleProjects /\
  exists rest,
    zHistory (activations n sampleStart)
      = maxZIndex (activations n sampleStart) :: rest.
Proof.
  induction n as [|n IH] using N.peano_ind; intros Hn.
  - change (activations 0 sampleStart) with sampleStart.
    split; [apply (reachable_init samplePage)|].
    split; [vm_compute; reflexivity|].
    split; [vm_compute; reflexivity|].
    split; [vm_compute; reflexivity|].
    exists []. vm_compute. reflexivity.
  - rewrite N2Z.inj_succ in Hn |- *.
    destruct IH as (Hr & Hz & Ha & Hp & (rest & Hh)); [lia|].
    rewrite activations_succ.
    set (sn := activations n sampleStart) in *.
    destruct (bringToFront_own "about" sn _ Ha)
      as (s' & Hb & Hn' & Hm & Hz' & _ & Hh' & _).
    assert (Hadd : addOne (maxZIndex sn) = 201 + Z.succ (Z.of_N n)).
    { rewrite Hz. rewrite (proj1 (proj2 (addOne_range (201 + Z.of_N n) ltac:(lia))));
        lia. }
    split.
    { apply (reachable_step (BringToFront "about") Hr). exact I. }
    rewrite Hb. cbn [final].
    split; [rewrite Hz'; exact Hadd|].
    split; [rewrite Hn', Hadd; apply f_equal, fronted_fronted|].
    split; [rewrite (Hm "projects"%string) by discriminate; rewrite Hp; reflexivity|].
    exists (zHistory sn). rewrite Hh', Hz'. reflexivity.
Qed.

(** C2, as stated, fails once the counter has reached 2^53: in the state
    [sampleSaturated], reached from start-up by activations of the first
    window, the counter and that window's stacking order stand at 2^53;
    [bringToFront] on the second window leaves the counter as it is and
    hands out 2^53 again, so the window brought to the front is not
    strictly above the other. *)
Lemma stacking_order_repeats_at_saturation :
  reachable sampleStylesheet anyEvent sampleSaturated /\
  maxZIndex sampleSaturated = saturation /\
  exists wdA s' wdP wdA',
    windows sampleSaturated !! "about"%string = Some wdA /\
    stackOrder wdA = Some saturation /\
    saturation ∈ zHistory sampleSaturated /\
    bringToFront "projects" sampleSaturated = Done s' /\
    maxZIndex s' = maxZIndex sampleSaturated /\
    windows s' !! "projects"%string = Some wdP /\
    windows s' !! "about"%string = Some wdA' /\
    isActive wdP /\
    stackOrder wdP = Some saturation /\
    stackOrder wdA' = Some saturation /\
    ~ below (stackOrder wdA') saturation.
Proof.
  assert (H0 : 0 <= saturation - 201) by (unfold saturation; lia).
  assert (Hn : Z.of_N (Z.to_N (saturation - 201)) <= saturation - 201)
    by (rewrite Z2N.id by exact H0; lia).
  destruct (activations_state _ Hn) as (Hr & Hz & Ha & Hp & (rest & Hh)).
  rewrite Z2N.id in Hz, Ha by exact H0.
  replace (201 + (saturation - 201)) with saturation in Hz, Ha by lia.
  unfold sampleSaturated.
  set (st := activations (Z.to_N (saturation - 201)) sampleStart) in *.
  clearbody st.
  destruct (bringToFront_own "projects" st _ Hp)
    as (s' & Hb & Hn' & Hm & Hz' & _ & Hh' & _).
  rewrite Hz, addOne_saturation in Hn', Hz'.
  split; [exact Hr|]. split; [exact Hz|].
  exists (fronted saturation sampleAbout), s',
         (fronted saturation sampleProjects),
         (unfocused (fronted saturation sampleAbout)).
  split; [exact Ha|]. split; [reflexivity|].
  split; [rewrite Hh, Hz; apply list_elem_of_here|].
  split; [exact Hb|]. split; [rewrite Hz', Hz; reflexivity|].
  split; [exact Hn'|].
  split; [rewrite (Hm "about"%string) by discriminate; rewrite Ha; reflexivity|].
  split; [reflexivity|]. split; [reflexivity|]. split; [reflexivity|].
  unfold below, stackOrder, unfocused, fronted. cbn. lia.
Qed.

(** C2, amended. In every state of a run, [bringToFront] on a registered
    window makes it active, alone, with the counter's new value as its
    stacking order, which no other window exceeds.  While the counter is
    below 2^53 the new value is the counter plus one, it lies strictly
    above the stacking order of every other window and was never assigned
    before; at 2^53 the increment is absorbed.  The counter starts at 200,
    no event decreases it and it never exceeds 2^53; while it is below
    2^53 the values assigned so far are pairwise different; every window's
    stacking order is one of them. *)
Theorem bringToFront_on_top css s :
  reachable css anyEvent s ->
  (forall w wd,
     windows s !! w = Some wd ->
     exists s' wd',
       bringToFront w s = Done s' /\
       windows s' !! w = Some wd' /\
       isActive wd' /\
       stackOrder wd' = Some (maxZIndex s') /\
       (forall m wd'', m <> w -> windows s' !! m = Some wd'' ->
          notAbove (stackOrder wd'') (maxZIndex s') /\ ~ isActive wd'') /\
       zHistory s' = maxZIndex s' :: zHistory s /\
       (maxZIndex s < saturation ->
          maxZIndex s' = maxZIndex s + 1 /\
          (forall m wd'', m <> w -> windows s' !! m = Some wd'' ->
             below (stackOrder wd'') (maxZIndex s + 1)) /\
          (maxZIndex s + 1) ∉ zHistory s) /\
       (maxZIndex s = saturation -> maxZIndex s' = saturation)) /\
  (forall p, maxZIndex (constructor p) = 200) /\
  200 <= maxZIndex s <= saturation /\
  (forall e, maxZIndex s <= maxZIndex (final (step css e s))) /\
  (maxZIndex s < saturation -> NoDup (zHistory s)) /\
  (forall n wd z, windows s !! n = Some wd -> stackOrder wd = Some z ->
                  z ∈ zHistory s).
Proof.
  intros Hr. apply reachable_counterInvariant in Hr.
  pose proof (counterInvariant_range s Hr) as Hrange.
  destruct Hr as (Hb & Hrec & H200 & Hnd & Hh).
  destruct (addOne_range (maxZIndex s) Hrange) as (Ha1 & Ha2 & Ha3).
  split; [|split; [done|]; split; [done|];
           split; [intros e; apply maxZIndex_step, Hrange|];
           split; [exact Hnd|]; exact Hrec].
  intros w wd Hw.
  destruct (bringToFront_own w s wd Hw) as (s' & Hbf & Hn & Hm & Hz & _ & Hhist & _).
  assert (Hothers : forall m wd'', m <> w -> windows s' !! m = Some wd'' ->
            notAbove (stackOrder wd'') (maxZIndex s) /\ ~ isActive wd'').
  { intros m wd'' Hne Hl. rewrite (Hm m Hne) in Hl.
    destruct (windows s !! m) as [w0|] eqn:E; simpl in Hl; [|done].
    inversion Hl; subst. split.
    - unfold unfocused, stackOrder. simpl.
      destruct (zIndex (element w0)) as [z0|] eqn:Ez; simpl; [|done].
      exact (Hb m w0 z0 E Ez).
    - unfold isActive, unfocused. simpl. discriminate. }
  assert (Hweak : forall o a b, notAbove o a -> a <= b -> notAbove o b).
  { intros [z0|] a b; simpl; [lia|done]. }
  assert (Hstrict : forall o a, notAbove o a -> below o (a + 1)).
  { intros [z0|] a; simpl; [lia|done]. }
  exists s', (fronted (addOne (maxZIndex s)) wd).
  split; [exact Hbf|]. split; [exact Hn|]. split; [done|].
  split; [rewrite Hz; reflexivity|].
  split.
  { intros m wd'' Hne Hl. destruct (Hothers m wd'' Hne Hl) as [A B].
    split; [|exact B]. apply (Hweak _ _ _ A). lia. }
  split; [rewrite Hhist, Hz; reflexivity|].
  split.
  - intros Hlt. split; [rewrite Hz; apply Ha2, Hlt|]. split.
    + intros m wd'' Hne Hl. apply Hstrict, (Hothers m wd'' Hne Hl).
    + intros Hin. apply Hh in Hin. lia.
  - intros Heq. rewrite Hz. rewrite (Ha3 Heq). exact Heq.
Qed.

(** On the sample page after start-up, where the counter stands at 201,
    the second window is brought to the front with stacking order 202. *)
Lemma bringToFront_on_top_witness :
  maxZIndex sampleStart = 201 /\
  exists s' wd',
    bringToFront "projects" sampleStart = Done s' /\
    windows s' !! "projects"%string = Some wd' /\
    isActive wd' /\
    stackOrder wd' = Some 202 /\
    maxZIndex s' = 202 /\
    (forall m wd'', m <> "projects"%string -> windows s' !! m = Some wd'' ->
       below (stackOrder wd'') 202 /\ ~ isActive wd'') /\
    (202 ∉ zHistory sampleStart) /\
    zHistory s' = 202 :: zHistory sampleStart.
Proof.
  assert (E : maxZIndex sampleStart = 201) by (vm_compute; reflexivity).
  split; [exact E|].
  destruct (proj1 (bringToFront_on_top sampleStylesheet sampleStart
                     (reachable_init samplePage)) "projects"%string sampleProjects)
    as (s' & wd' & Hb & Hl & Ha & Hso & Hoth & Hh & Hlt & _).
  { vm_compute. reflexivity. }
  rewrite E in Hlt.
  destruct Hlt as (Hz & Hbelow & Hnew); [unfold saturation; lia|].
  change (201 + 1) with 202 in Hz, Hbelow, Hnew.
  rewrite Hz in Hso, Hh.
  exists s', wd'. split; [exact Hb|]. split; [exact Hl|]. split; [exact Ha|].
  split; [exact Hso|]. split; [exact Hz|].
  split.
  { intros m wd'' Hne Hm. split; [exact (Hbelow m wd'' Hne Hm)|].
    exact (proj2 (Hoth m wd'' Hne Hm)). }
  split; [exact Hnew|exact Hh].
Defined.
